(** * The event watch handler of package [service]

    [WatchEvent] and its three strategies ([watchWithCursor],
    [watchWithStartFrom], [watchFromNow]) with the event-type filter, as
    they stand in the second Go file of
    src/apimachinery/toposerver/inst/inst.go.

    The handler talks to a redis cache, to the wall clock and to helpers
    of its package and of other packages whose code is not in that file
    (getNodesFromCursor, getHeadTailNodeTargetNode, getLatestEventDetail,
    event.Key, json.CutJsonDataWithFields, options.Validate, ...).  These
    collaborators are an interface, [Collaborators], over an arbitrary
    world type; the Go functions are state-passing programs over that
    world which also record every call they make to a collaborator.
    Logging is left out. *)

From Stdlib Require Import ZArith Lia Ascii.
From stdpp Require Import base strings list gmap.

Local Open Scope string_scope.
Local Open Scope list_scope.

(** ** Machine integers *)

(** Go's [int64] arithmetic wraps around.  [wrap64] is the
    two's-complement reduction into [-2^63, 2^63). *)
Definition int64_min : Z := (- 2 ^ 63)%Z.
Definition int64_max : Z := (2 ^ 63 - 1)%Z.
Definition wrap64 (z : Z) : Z := ((z + 2 ^ 63) mod 2 ^ 64 - 2 ^ 63)%Z.
Definition sub64 (a b : Z) : Z := wrap64 (a - b).
Definition is_int64 (z : Z) : Prop := (int64_min ≤ z ≤ int64_max)%Z.

(** [time.Duration] is a count of nanoseconds. *)
Definition time_Second : Z := 1000000000%Z.
Definition time_Millisecond : Z := 1000000%Z.

(** ** Data model (package watch / event) *)

Definition error := string.
Definition EventType := string.
Definition CursorType := string.

(** [types.TimeStamp]: [Sec] and [Nano] are unsigned 32-bit in Go, so the
    conversion [int64(node.ClusterTime.Sec)] is exact and is left
    implicit below. *)
Record TimeStamp := mkTimeStamp { Sec : Z; Nano : Z }.

Module ChainNode.
(** [watch.ChainNode], restricted to the fields the watch service reads. *)
Record t := mk {
  Cursor : string;
  NextCursor : string;
  ClusterTime : TimeStamp;
  EventType : EventType
}.
End ChainNode.

Module Key.
(** [event.Key]: its methods only derive constants of one namespace. *)
Record t := mk {
  HeadKey : string;
  TailKey : string;
  DetailKey : string → string;
  Namespace : string;
  TTLSeconds : Z
}.
End Key.

Module WatchEventOptions.
Record t := mk {
  EventTypes : list EventType;
  Fields : list string;
  StartFrom : Z;
  Cursor : string;
  Resource : CursorType
}.
End WatchEventOptions.

Module WatchEventResp.
(** [Detail] is an interface value in Go: [None] is the nil detail,
    [Some j] is [watch.JsonString(j)]. *)
Record t := mk {
  Cursor : string;
  Resource : CursorType;
  Detail : option string
}.
End WatchEventResp.

(** ** The event-type filter *)

(** [getHitNodeWithEventType].  The Go map [m] is used as a set: only the
    presence of a key is tested.  Both loops are folds from the left, and
    [append] adds at the end. *)
Definition getHitNodeWithEventType
    (nodes : list ChainNode.t) (typs : list EventType) : list ChainNode.t :=
  if decide (length typs = 0) then nodes
  else if decide (length nodes = 0) then nodes
  else
    let m := foldl (λ (m : gmap EventType bool) t, <[t := true]> m) ∅ typs in
    foldl (λ hitNodes node,
             match m !! ChainNode.EventType node with
             | Some _ => hitNodes ++ [node]
             | None => hitNodes
             end) [] nodes.

(** What the filter is meant to keep, and what the scan is meant to keep. *)
Definition type_passes (typs : list EventType) (node : ChainNode.t) : Prop :=
  typs = [] ∨ ChainNode.EventType node ∈ typs.

Definition not_before (startFrom : Z) (node : ChainNode.t) : Prop :=
  (startFrom ≤ Sec (ChainNode.ClusterTime node))%Z.

Definition wanted (opts : WatchEventOptions.t) (node : ChainNode.t) : Prop :=
  type_passes (WatchEventOptions.EventTypes opts) node
  ∧ not_before (WatchEventOptions.StartFrom opts) node.

#[export] Instance type_passes_dec typs node : Decision (type_passes typs node).
Proof. unfold type_passes. apply _. Defined.

#[export] Instance not_before_dec startFrom node : Decision (not_before startFrom node).
Proof. unfold not_before. apply _. Defined.

#[export] Instance wanted_dec opts node : Decision (wanted opts node).
Proof. unfold wanted. apply _. Defined.

(** ** Outcomes, the call log and the state-passing monad *)

(** What running a Go function yields: a value, a returned [error], a
    runtime panic, or, for the loops, the end of the fuel that bounds the
    number of rounds the model is allowed to run. *)
Inductive Outcome (A : Type) : Type :=
| Ok (a : A)
| Err (e : error)
| Panic (msg : string)
| OutOfFuel.
Arguments Ok {A} a.
Arguments Err {A} e.
Arguments Panic {A} msg.
Arguments OutOfFuel {A}.

(** One entry per call to a collaborator, in the order the calls are made. *)
Inductive Call : Type :=
| CallNowUnix
| CallAfter (d : Z)
| CallSelectTimeout
| CallSleep (d : Z)
| CallGetNodesFromCursor (step : Z) (cursor : string)
| CallGetHeadTailNodeTargetNode
| CallGetLatestEventDetail
| CallCacheGet (k : string)
| CallPipelineExec (ks : list string).

Definition is_scan_call (c : Call) : bool :=
  match c with CallGetNodesFromCursor _ _ => true | _ => false end.

Record St (W : Type) : Type := mkSt { world : W; calls : list Call }.
Arguments mkSt {W} world calls.
Arguments world {W} s.
Arguments calls {W} s.

Definition M (W A : Type) : Type := St W → Outcome A * St W.

Definition ret {W A} (a : A) : M W A := λ s, (Ok a, s).

Definition bind {W A B} (m : M W A) (k : A → M W B) : M W B :=
  λ s, match m s with
       | (Ok a, s') => k a s'
       | (Err e, s') => (Err e, s')
       | (Panic msg, s') => (Panic msg, s')
       | (OutOfFuel, s') => (OutOfFuel, s')
       end.

Notation "x <- m ;; k" := (bind m (λ x, k))
  (at level 20, m at level 99, k at level 200, only parsing).
Notation "' p <- m ;; k" := (bind m (λ x, match x with p => k end))
  (at level 20, p pattern, m at level 99, k at level 200, only parsing).

(** [return nil, err] *)
Definition throw {W A} (e : error) : M W A := λ s, (Err e, s).
Definition panic {W A} (msg : string) : M W A := λ s, (Panic msg, s).

(** A call to a collaborator: log it, then let the world answer. *)
Definition call {W A} (c : Call) (op : W → A * W) : M W A :=
  λ s, let '(a, w') := op (world s) in
       (Ok a, mkSt w' (calls s ++ [c])).

(** [val, err := f(...); if err != nil { return nil, err }] *)
Definition call_checked {W A} (c : Call) (op : W → (error + A) * W) : M W A :=
  r <- call c op ;;
  match r with
  | inl err => throw err
  | inr a => ret a
  end.

(** The handler boundary: an [error] of the strategy becomes a value. *)
Definition try {W A} (m : M W A) : M W (error + A) :=
  λ s, match m s with
       | (Ok a, s') => (Ok (inr a), s')
       | (Err e, s') => (Ok (inl e), s')
       | (Panic msg, s') => (Panic msg, s')
       | (OutOfFuel, s') => (OutOfFuel, s')
       end.

(** [for { ... }]: the body either continues with the next loop state
    ([inl]) or returns ([inr]). *)
Fixpoint iter {W I R} (fuel : nat) (body : I → M W (I + R)) (i : I) : M W R :=
  match fuel with
  | O => λ s, (OutOfFuel, s)
  | S fuel' =>
      λ s, match body i s with
           | (Ok (inl i'), s') => iter fuel' body i' s'
           | (Ok (inr r), s') => (Ok r, s')
           | (Err e, s') => (Err e, s')
           | (Panic msg, s') => (Panic msg, s')
           | (OutOfFuel, s') => (OutOfFuel, s')
           end
  end.

(** [rounds n body i s]: the loop state and the state after [n] rounds
    that all ended in [continue] (or at the bottom of the body). *)
Fixpoint rounds {W I R} (n : nat) (body : I → M W (I + R)) (i : I) (s : St W)
    : option (I * St W) :=
  match n with
  | O => Some (i, s)
  | S n' =>
      match body i s with
      | (Ok (inl i'), s') => rounds n' body i' s'
      | _ => None
      end
  end.

(** ** HTTP side *)

Inductive ErrorCode : Type :=
| CCErrCommJSONUnmarshalFailed
| CCErrCommHTTPInputInvalid.

(** [metadata.RespError{Msg: defErr.Error(code)}]: the catalog entry is
    identified by its code. *)
Record RespError := mkRespError { Msg : ErrorCode }.

Inductive HttpResponse : Type :=
| WriteError (httpStatus : Z) (e : RespError)
| WriteEntity (events : list WatchEventResp.t).

Definition http_StatusOK : Z := 200%Z.

(** ** Collaborators *)

(** Everything the file uses and does not define.  The clock, the timer
    channel and the cache may answer differently at every call, so each
    operation transforms the world. *)
Class Collaborators (W : Type) := {
  Chan : Type;
  (* package-level constants and pure helpers *)
  NoEventCursor : string;
  eventStep : Z;
  CutJsonDataWithFields : string → list string → string;
  Validate : WatchEventOptions.t → option error;
  GetResourceKeyWithCursorType : CursorType → error + Key.t;
  (* package time *)
  world_Now_Unix : W → Z * W;
  world_After : Z → W → Chan * W;
  world_chan_ready : Chan → W → bool * W;
  world_Sleep : Z → W → unit * W;
  (* methods of the service and of its cache client *)
  world_getNodesFromCursor :
    Z → string → Key.t → W → (error + list ChainNode.t) * W;
  world_getHeadTailNodeTargetNode :
    Key.t → W → (error + ChainNode.t * ChainNode.t) * W;
  world_getLatestEventDetail :
    Key.t → W → (error + ChainNode.t * string) * W;
  world_cache_Get : string → W → (error + string) * W;
  world_pipeline_Exec : list string → W → (error + list string) * W
}.

Section Service.
Context {W : Type} `{Collaborators W}.

Definition time_Now_Unix : M W Z := call CallNowUnix world_Now_Unix.
Definition time_After (d : Z) : M W Chan := call (CallAfter d) (world_After d).
(** [select { case <-c: ...; default: }] on a timer channel. *)
Definition select_ready (c : Chan) : M W bool :=
  call CallSelectTimeout (world_chan_ready c).
Definition time_Sleep (d : Z) : M W unit := call (CallSleep d) (world_Sleep d).

Definition getNodesFromCursor (step : Z) (cursor : string) (key : Key.t)
    : M W (list ChainNode.t) :=
  call_checked (CallGetNodesFromCursor step cursor)
               (world_getNodesFromCursor step cursor key).
Definition getHeadTailNodeTargetNode (key : Key.t)
    : M W (ChainNode.t * ChainNode.t) :=
  call_checked CallGetHeadTailNodeTargetNode
               (world_getHeadTailNodeTargetNode key).
Definition getLatestEventDetail (key : Key.t) : M W (ChainNode.t * string) :=
  call_checked CallGetLatestEventDetail (world_getLatestEventDetail key).
(** [s.cache.Get(k).Result()] *)
Definition cache_Get (k : string) : M W string :=
  call_checked (CallCacheGet k) (world_cache_Get k).

Definition missResp (opts : WatchEventOptions.t) : WatchEventResp.t :=
  WatchEventResp.mk NoEventCursor (WatchEventOptions.Resource opts) None.

(** A response carrying a node's cursor and its projected detail. *)
Definition hitResp (opts : WatchEventOptions.t) (node : ChainNode.t)
    (detail : string) : WatchEventResp.t :=
  WatchEventResp.mk (ChainNode.Cursor node) (WatchEventOptions.Resource opts)
    (Some (CutJsonDataWithFields detail (WatchEventOptions.Fields opts))).

Definition detailKeys (key : Key.t) (nodes : list ChainNode.t) : list string :=
  map (λ node, Key.DetailKey key (ChainNode.Cursor node)) nodes.

(** [getEventsWithCursorNodes]: one [Get] per hit node is queued on a
    pipeline, [pipe.Exec] sends them in one round trip and fails when any
    of them fails; [results[idx].Val()] is the idx-th answer. *)
Definition getEventsWithCursorNodes
    (opts : WatchEventOptions.t) (hitNodes : list ChainNode.t) (key : Key.t)
    : M W (list WatchEventResp.t) :=
  let keys := detailKeys key hitNodes in
  results <- call_checked (CallPipelineExec keys) (world_pipeline_Exec keys) ;;
  ret (imap (λ idx node,
               let jsonStr := nth idx results "" in
               let cut := CutJsonDataWithFields jsonStr (WatchEventOptions.Fields opts) in
               WatchEventResp.mk (ChainNode.Cursor node)
                                 (WatchEventOptions.Resource opts)
                                 (Some cut))
            hitNodes).

(** [watchFromNow] *)
Definition watchFromNow (key : Key.t) (opts : WatchEventOptions.t)
    : M W WatchEventResp.t :=
  ' (node, tailTarget) <- getLatestEventDetail key ;;
  let hit := getHitNodeWithEventType [node] (WatchEventOptions.EventTypes opts) in
  if decide (length hit = 0) then
    ret (missResp opts)
  else
    let cut := CutJsonDataWithFields tailTarget (WatchEventOptions.Fields opts) in
    ret (WatchEventResp.mk (ChainNode.Cursor node)
                           (WatchEventOptions.Resource opts)
                           (Some cut)).

(** The nodes of a window whose cluster time is not before [StartFrom]
    (the inner [for _, node := range hitNodes] of the scan). *)
Definition matchedNodes (opts : WatchEventOptions.t) (hitNodes : list ChainNode.t)
    : list ChainNode.t :=
  foldl (λ matched node,
           if (Sec (ChainNode.ClusterTime node) >=? WatchEventOptions.StartFrom opts)%Z
           then matched ++ [node] else matched) [] hitNodes.

(** One round of the scan loop of [watchWithStartFrom]; [inl c] is
    [nextCursor = c] followed by the next round. *)
Definition scanRound (key : Key.t) (opts : WatchEventOptions.t) (timeout : Chan)
    (nextCursor : string) : M W (string + list WatchEventResp.t) :=
  fired <- select_ready timeout ;;
  if fired : bool then
    throw "scan the event cost too long time"
  else
    nodes <- getNodesFromCursor eventStep nextCursor key ;;
    if decide (length nodes = 0) then
      ret (inr [missResp opts])
    else
      let hitNodes := getHitNodeWithEventType nodes (WatchEventOptions.EventTypes opts) in
      let matchedNodes := matchedNodes opts hitNodes in
      if decide (length matchedNodes ≠ 0) then
        resp <- getEventsWithCursorNodes opts matchedNodes key ;;
        ret (inr resp)
      else
        match nodes !! (length nodes - 1) with
        | None => panic "runtime error: index out of range"
        | Some lastNode =>
            if decide (ChainNode.NextCursor lastNode = Key.TailKey key) then
              detail <- cache_Get (Key.DetailKey key (ChainNode.Cursor lastNode)) ;;
              ret (inr [WatchEventResp.mk (ChainNode.Cursor lastNode)
                                          (WatchEventOptions.Resource opts)
                                          (Some detail)])
            else
              ret (inl (ChainNode.Cursor lastNode))
        end.

(** The first [if] of [watchWithStartFrom] ("not one event occurs"): it
    can only return the out-of-range error; otherwise control goes on to
    the statement after it. *)
Definition emptyChainCheck (key : Key.t) (opts : WatchEventOptions.t)
    (headTarget tailTarget : ChainNode.t) : M W unit :=
  if bool_decide (ChainNode.NextCursor headTarget = Key.TailKey key)
     || bool_decide (ChainNode.NextCursor tailTarget = Key.HeadKey key)
  then
    now <- time_Now_Unix ;;
    let diff := sub64 now (WatchEventOptions.StartFrom opts) in
    if ((diff <? 0) || (diff >? Key.TTLSeconds key))%Z then
      throw "bk_start_from value is out of range"
    else ret tt
  else ret tt.

(** [watchWithStartFrom] *)
Definition watchWithStartFrom (fuel : nat) (key : Key.t) (opts : WatchEventOptions.t)
    : M W (list WatchEventResp.t) :=
  ' (headTarget, tailTarget) <- getHeadTailNodeTargetNode key ;;
  _ <- emptyChainCheck key opts headTarget tailTarget ;;
  if (Sec (ChainNode.ClusterTime headTarget) >? WatchEventOptions.StartFrom opts)%Z then
    throw "bk_start_from value is too small"
  else if (Sec (ChainNode.ClusterTime tailTarget) <? WatchEventOptions.StartFrom opts)%Z then
    latestEvent <- watchFromNow key opts ;;
    ret [latestEvent]
  else
    let nextCursor := Key.HeadKey key in
    timeout <- time_After (25 * time_Second) ;;
    iter fuel (scanRound key opts timeout) nextCursor.

Definition timeoutWatchLoopSeconds : Z := 25%Z.
Definition loopInternal : Z := (250 * time_Millisecond)%Z.

(** One round of the loop of [watchWithCursor]; [inl tt] is [continue]. *)
Definition cursorRound (key : Key.t) (opts : WatchEventOptions.t)
    (startCursor : string) (start : Z) (_ : unit)
    : M W (unit + list WatchEventResp.t) :=
  nodes <- getNodesFromCursor eventStep startCursor key ;;
  if decide (length nodes = 0) then
    now <- time_Now_Unix ;;
    if (sub64 now start >? timeoutWatchLoopSeconds)%Z then
      ret (inr [missResp opts])
    else
      _ <- time_Sleep loopInternal ;;
      ret (inl tt)
  else
    let hitNodes := getHitNodeWithEventType nodes (WatchEventOptions.EventTypes opts) in
    if decide (length hitNodes ≠ 0) then
      resp <- getEventsWithCursorNodes opts hitNodes key ;;
      ret (inr resp)
    else
      now <- time_Now_Unix ;;
      if (sub64 now start >? timeoutWatchLoopSeconds)%Z then
        match nodes !! (length nodes - 1) with
        | None => panic "runtime error: index out of range"
        | Some lastNode =>
            ret (inr [WatchEventResp.mk (ChainNode.Cursor lastNode)
                                        (WatchEventOptions.Resource opts)
                                        None])
        end
      else
        _ <- time_Sleep loopInternal ;;
        ret (inl tt).

(** [watchWithCursor] *)
Definition watchWithCursor (fuel : nat) (key : Key.t) (opts : WatchEventOptions.t)
    : M W (list WatchEventResp.t) :=
  let startCursor :=
    if decide (WatchEventOptions.Cursor opts = NoEventCursor)
    then Key.HeadKey key else WatchEventOptions.Cursor opts in
  start <- time_Now_Unix ;;
  iter fuel (cursorRound key opts startCursor start) tt.

(** [options.Resource = watch.CursorType(resource)] *)
Definition withResource (options : WatchEventOptions.t) (resource : string)
    : WatchEventOptions.t :=
  WatchEventOptions.mk (WatchEventOptions.EventTypes options)
                       (WatchEventOptions.Fields options)
                       (WatchEventOptions.StartFrom options)
                       (WatchEventOptions.Cursor options)
                       resource.

Definition inputInvalid : HttpResponse :=
  WriteError http_StatusOK (mkRespError CCErrCommHTTPInputInvalid).

(** What the handler writes for the outcome of a strategy: the events on
    success, the input-invalid error body for every returned [error]. *)
Definition respond {A} (wrap : A → HttpResponse) (r : Outcome A * St W)
    : Outcome HttpResponse * St W :=
  match r with
  | (Ok a, s') => (Ok (wrap a), s')
  | (Err e, s') => (Ok inputInvalid, s')
  | (Panic msg, s') => (Panic msg, s')
  | (OutOfFuel, s') => (OutOfFuel, s')
  end.

(** [WatchEvent], the handler.  [body] is what decoding the request body
    into the options yields; logging is not modelled. *)
Definition WatchEvent (fuel : nat) (resource : string)
    (body : error + WatchEventOptions.t) : M W HttpResponse :=
  match body with
  | inl err =>
      ret (WriteError http_StatusOK (mkRespError CCErrCommJSONUnmarshalFailed))
  | inr decoded =>
      let options := withResource decoded resource in
      match Validate options with
      | Some err => ret inputInvalid
      | None =>
          match GetResourceKeyWithCursorType (WatchEventOptions.Resource options) with
          | inl err => ret inputInvalid
          | inr key =>
              if decide (String.length (WatchEventOptions.Cursor options) ≠ 0) then
                r <- try (watchWithCursor fuel key options) ;;
                match r with
                | inl err => ret inputInvalid
                | inr events => ret (WriteEntity events)
                end
              else if decide (WatchEventOptions.StartFrom options ≠ 0%Z) then
                r <- try (watchWithStartFrom fuel key options) ;;
                match r with
                | inl err => ret inputInvalid
                | inr events => ret (WriteEntity events)
                end
              else
                r <- try (watchFromNow key options) ;;
                match r with
                | inl err => ret inputInvalid
                | inr events => ret (WriteEntity [events])
                end
          end
      end
  end.

End Service.

(** ** Requests that ask for no type and for every known type *)

Definition withEventTypes (opts : WatchEventOptions.t) (typs : list EventType)
    : WatchEventOptions.t :=
  WatchEventOptions.mk typs (WatchEventOptions.Fields opts)
                       (WatchEventOptions.StartFrom opts)
                       (WatchEventOptions.Cursor opts)
                       (WatchEventOptions.Resource opts).

Definition withFields (opts : WatchEventOptions.t) (fields : list string)
    : WatchEventOptions.t :=
  WatchEventOptions.mk (WatchEventOptions.EventTypes opts) fields
                       (WatchEventOptions.StartFrom opts)
                       (WatchEventOptions.Cursor opts)
                       (WatchEventOptions.Resource opts).

(** The worlds satisfying [Inv] only hold events of the [known] types, and
    no collaborator leads out of them. *)
Class KnownTypes {W : Type} `{Collaborators W}
    (known : list EventType) (Inv : W → Prop) : Prop := {
  inv_Now_Unix : ∀ w, Inv w → Inv (snd (world_Now_Unix w));
  inv_After : ∀ d w, Inv w → Inv (snd (world_After d w));
  inv_chan_ready : ∀ c w, Inv w → Inv (snd (world_chan_ready c w));
  inv_Sleep : ∀ d w, Inv w → Inv (snd (world_Sleep d w));
  inv_getNodesFromCursor :
    ∀ step c key w, Inv w → Inv (snd (world_getNodesFromCursor step c key w));
  inv_getHeadTailNodeTargetNode :
    ∀ key w, Inv w → Inv (snd (world_getHeadTailNodeTargetNode key w));
  inv_getLatestEventDetail :
    ∀ key w, Inv w → Inv (snd (world_getLatestEventDetail key w));
  inv_cache_Get : ∀ k w, Inv w → Inv (snd (world_cache_Get k w));
  inv_pipeline_Exec : ∀ ks w, Inv w → Inv (snd (world_pipeline_Exec ks w));
  known_window :
    ∀ step c key w nodes w',
      Inv w → world_getNodesFromCursor step c key w = (inr nodes, w') →
      ∀ node, node ∈ nodes → ChainNode.EventType node ∈ known;
  known_latest :
    ∀ key w node detail w',
      Inv w → world_getLatestEventDetail key w = (inr (node, detail), w') →
      ChainNode.EventType node ∈ known
}.

(** A program that stays within [Inv]. *)
Definition preserves {W A : Type} (Inv : W → Prop) (m : M W A) : Prop :=
  ∀ s, Inv (world s) → Inv (world (snd (m s))).

(** Two programs that agree on the worlds of [Inv]. *)
Definition agree {W A : Type} (Inv : W → Prop) (m1 m2 : M W A) : Prop :=
  ∀ s, Inv (world s) → m1 s = m2 s.

(** ** An in-memory cache and clock

    A concrete world on which the functions above can be run: the chain is
    the list of its real nodes (oldest first), the detail store is a finite
    map, the clock counts nanoseconds and every cache round trip costs
    [latency]. *)
Module Sim.

Record World := mkWorld {
  clock : Z;
  latency : Z;
  chain : list ChainNode.t;
  details : gmap string string
}.

Definition tick (w : World) : World :=
  mkWorld (clock w + latency w) (latency w) (chain w) (details w).

Definition knownEventTypes : list EventType := ["create"; "update"; "delete"].
Definition knownResources : list CursorType := ["host"; "biz"; "set"; "module"].

Definition hostKey : Key.t :=
  Key.mk "host:head" "host:tail" (λ cursor, "host:detail:" +:+ cursor) "host" 3600.

(** *** Field projection on flat JSON objects *)

Definition quote : ascii := "034"%char.
Definition backslash : ascii := "092"%char.

(** The members of an object body (the text between its braces), cut at
    the commas that are neither inside a string nor inside a nested
    value. *)
Fixpoint split_members (cs : list ascii) (depth : nat) (instr esc : bool)
    (cur : list ascii) : list (list ascii) :=
  match cs with
  | [] => match cur with [] => [] | _ => [rev cur] end
  | c :: cs' =>
      if instr then
        if esc then split_members cs' depth true false (c :: cur)
        else if Ascii.eqb c backslash then split_members cs' depth true true (c :: cur)
        else if Ascii.eqb c quote then split_members cs' depth false false (c :: cur)
        else split_members cs' depth true false (c :: cur)
      else if Ascii.eqb c quote then split_members cs' depth true false (c :: cur)
      else if Ascii.eqb c "{" || Ascii.eqb c "[" then
        split_members cs' (S depth) false false (c :: cur)
      else if Ascii.eqb c "}" || Ascii.eqb c "]" then
        split_members cs' (pred depth) false false (c :: cur)
      else if Ascii.eqb c "," && Nat.eqb depth 0 then
        rev cur :: split_members cs' 0 false false []
      else split_members cs' depth false false (c :: cur)
  end.

Fixpoint until_quote (cs : list ascii) : list ascii :=
  match cs with
  | [] => []
  | c :: cs' => if Ascii.eqb c quote then [] else c :: until_quote cs'
  end.

(** The name of a member: the text of its first string. *)
Fixpoint member_name (cs : list ascii) : string :=
  match cs with
  | [] => ""
  | c :: cs' =>
      if Ascii.eqb c quote then String.string_of_list_ascii (until_quote cs')
      else member_name cs'
  end.

Fixpoint join_members (ms : list (list ascii)) : list ascii :=
  match ms with
  | [] => []
  | [m] => m
  | m :: ms' => m ++ (","%char :: join_members ms')
  end.

(** Modelled from the spec: json.CutJsonDataWithFields is not part of the
    sources.  With no field the document is returned unchanged;
    otherwise the result is the object holding the listed top-level
    fields that are present, in their order in the source. *)
Definition cutJsonDataWithFields (jsonStr : string) (fields : list string) : string :=
  match fields with
  | [] => jsonStr
  | _ =>
      match String.list_ascii_of_string jsonStr with
      | "{"%char :: body =>
          let members := split_members (removelast body) 0 false false [] in
          let kept := filter (λ m, bool_decide (member_name m ∈ fields)) members in
          String.string_of_list_ascii ("{"%char :: join_members kept ++ ["}"%char])
      | _ => jsonStr
      end
  end.

(** *** Request validation and key resolution *)

(** Modelled from the spec: options.Validate is not part of the sources.
    It rejects an unknown resource, a request with both a cursor and a
    start time, and an unknown event type. *)
Definition validate (o : WatchEventOptions.t) : option error :=
  if bool_decide (WatchEventOptions.Resource o ∈ knownResources) then
    if bool_decide (WatchEventOptions.Cursor o ≠ "")
       && bool_decide (WatchEventOptions.StartFrom o ≠ 0%Z)
    then Some "bk_cursor and bk_start_from can not be set at the same time"
    else if forallb (λ t, bool_decide (t ∈ knownEventTypes))
                    (WatchEventOptions.EventTypes o)
         then None
         else Some "invalid event type"
  else Some "unsupported resource".

(** Modelled from the spec: event.GetResourceKeyWithCursorType is not part
    of the sources.  Here only the host resource has a chain. *)
Definition getResourceKeyWithCursorType (r : CursorType) : error + Key.t :=
  if decide (r = "host") then inr hostKey else inl "unsupported cursor type".

(** *** The chain walker *)

Fixpoint nodes_after (cursor : string) (l : list ChainNode.t)
    : option (list ChainNode.t) :=
  match l with
  | [] => None
  | n :: l' =>
      if decide (ChainNode.Cursor n = cursor) then Some l'
      else nodes_after cursor l'
  end.

(** Modelled from the spec: getNodesFromCursor is not part of the sources.
    It returns up to [step] nodes strictly after [cursor], oldest first;
    from the head key it starts at the oldest real event; a cursor that
    is no longer in the chain is an error. *)
Definition sim_getNodesFromCursor (step : Z) (cursor : string) (key : Key.t)
    (w : World) : (error + list ChainNode.t) * World :=
  if decide (cursor = Key.HeadKey key) then
    (inr (take (Z.to_nat step) (chain w)), tick w)
  else
    match nodes_after cursor (chain w) with
    | Some l => (inr (take (Z.to_nat step) l), tick w)
    | None => (inl "cursor does not exist", tick w)
    end.

Definition headSentinel (key : Key.t) : ChainNode.t :=
  ChainNode.mk (Key.HeadKey key) (Key.TailKey key) (mkTimeStamp 0 0) "".
Definition tailSentinel (key : Key.t) : ChainNode.t :=
  ChainNode.mk (Key.TailKey key) (Key.HeadKey key) (mkTimeStamp 0 0) "".

(** Modelled from the spec: getHeadTailNodeTargetNode is not part of the
    sources.  It returns the first and the last real node, and the two
    sentinels when the chain has no real node. *)
Definition sim_getHeadTailNodeTargetNode (key : Key.t) (w : World)
    : (error + ChainNode.t * ChainNode.t) * World :=
  match chain w, last (chain w) with
  | first :: _, Some newest => (inr (first, newest), tick w)
  | _, _ => (inr (headSentinel key, tailSentinel key), tick w)
  end.

Definition sim_cache_Get (k : string) (w : World) : (error + string) * World :=
  match details w !! k with
  | Some v => (inr v, tick w)
  | None => (inl "redis: nil", tick w)
  end.

(** Modelled from the spec: getLatestEventDetail is not part of the
    sources.  It returns the newest real node with its detail; the
    lookup fails when there is none. *)
Definition sim_getLatestEventDetail (key : Key.t) (w : World)
    : (error + ChainNode.t * string) * World :=
  match last (chain w) with
  | Some newest =>
      match details w !! Key.DetailKey key (ChainNode.Cursor newest) with
      | Some v => (inr (newest, v), tick w)
      | None => (inl "redis: nil", tick w)
      end
  | None => (inl "redis: nil", tick w)
  end.

(** The answers of a pipeline of [Get]s; the first missing key fails the
    whole [Exec]. *)
Fixpoint lookup_all (m : gmap string string) (ks : list string)
    : error + list string :=
  match ks with
  | [] => inr []
  | k :: ks' =>
      match m !! k, lookup_all m ks' with
      | Some v, inr vs => inr (v :: vs)
      | None, _ => inl "redis: nil"
      | _, inl e => inl e
      end
  end.

Definition sim_pipeline_Exec (ks : list string) (w : World)
    : (error + list string) * World :=
  (lookup_all (details w) ks, tick w).

(** The timer channel of [time.After d] is its deadline: it is ready once
    the clock has reached it. *)
#[export] Instance collaborators (step : Z) : Collaborators World := {|
  Chan := Z;
  NoEventCursor := "NoEventCursor";
  eventStep := step;
  CutJsonDataWithFields := cutJsonDataWithFields;
  Validate := validate;
  GetResourceKeyWithCursorType := getResourceKeyWithCursorType;
  world_Now_Unix := λ w, ((clock w `div` time_Second)%Z, w);
  world_After := λ d w, ((clock w + d)%Z, w);
  world_chan_ready := λ deadline w, ((deadline <=? clock w)%Z, w);
  world_Sleep := λ d w, (tt, mkWorld (clock w + d) (latency w) (chain w) (details w));
  world_getNodesFromCursor := sim_getNodesFromCursor;
  world_getHeadTailNodeTargetNode := sim_getHeadTailNodeTargetNode;
  world_getLatestEventDetail := sim_getLatestEventDetail;
  world_cache_Get := sim_cache_Get;
  world_pipeline_Exec := sim_pipeline_Exec
|}.

(** *** A small chain: A (create), B (update), C (create) *)

Definition nodeA : ChainNode.t := ChainNode.mk "A" "B" (mkTimeStamp 100 0) "create".
Definition nodeB : ChainNode.t := ChainNode.mk "B" "C" (mkTimeStamp 101 0) "update".
Definition nodeC : ChainNode.t :=
  ChainNode.mk "C" "host:tail" (mkTimeStamp 102 0) "create".

Definition detailOf (name : string) : string :=
  "{" +:+ String quote ("id" +:+ String quote (":1,"
      +:+ String quote ("name" +:+ String quote (":"
      +:+ String quote (name +:+ String quote "}"))))).

Definition abcDetails : gmap string string :=
  <["host:detail:A" := detailOf "a"]>
    (<["host:detail:B" := detailOf "b"]>
       (<["host:detail:C" := detailOf "c"]> ∅)).

(** The clock reads 150 s; one cache round trip takes a millisecond. *)
Definition abcWorld : World :=
  mkWorld (150 * time_Second) time_Millisecond [nodeA; nodeB; nodeC] abcDetails.

Definition start {W} (w : W) : St W := mkSt w [].

(** *** Scenarios *)

Definition step1 : Collaborators World := collaborators 1.
Definition step2 : Collaborators World := collaborators 2.
Definition wantCreate : WatchEventOptions.t :=
  WatchEventOptions.mk ["create"] ["name"] 101 "" "host".
Definition wantDelete : WatchEventOptions.t :=
  WatchEventOptions.mk ["delete"] ["name"] 101 "" "host".
(** A cache whose every round trip takes 13 seconds. *)
Definition slowWorld : World :=
  mkWorld (150 * time_Second) (13 * time_Second) [nodeA; nodeB; nodeC] abcDetails.
Definition bodyDelete101 : WatchEventOptions.t :=
  WatchEventOptions.mk ["delete"] [] 101 "" "".
Definition bodyAfterC : WatchEventOptions.t :=
  WatchEventOptions.mk [] [] 0 "C" "host".
Definition bodyDeleteAfterA : WatchEventOptions.t :=
  WatchEventOptions.mk ["delete"] [] 0 "A" "host".
(** A chain with the single event X of second 1000. *)
Definition nodeX : ChainNode.t :=
  ChainNode.mk "X" "host:tail" (mkTimeStamp 1000 0) "create".
Definition oneEventWorld (clockSec : Z) : World :=
  mkWorld (clockSec * time_Second) time_Millisecond [nodeX]
          (<["host:detail:X" := detailOf "x"]> ∅).
Definition from500 : WatchEventOptions.t :=
  WatchEventOptions.mk [] [] 500 "" "host".
Definition from1000 : WatchEventOptions.t :=
  WatchEventOptions.mk [] [] 1000 "" "host".
Definition from5000 : WatchEventOptions.t :=
  WatchEventOptions.mk ["create"] ["name"] 5000 "" "host".
(** A chain of two events whose cluster times are not in chain order:
    P of second 200, then Q of second 100. *)
Definition nodeP : ChainNode.t := ChainNode.mk "P" "Q" (mkTimeStamp 200 0) "create".
Definition nodeQ : ChainNode.t :=
  ChainNode.mk "Q" "host:tail" (mkTimeStamp 100 0) "create".
Definition unorderedWorld : World :=
  mkWorld (300 * time_Second) time_Millisecond [nodeP; nodeQ]
          (<["host:detail:P" := detailOf "p"]> (<["host:detail:Q" := detailOf "q"]> ∅)).
Definition from150 : WatchEventOptions.t :=
  WatchEventOptions.mk [] [] 150 "" "host".
Definition bodyUpdateNow : WatchEventOptions.t :=
  WatchEventOptions.mk ["update"] ["name"] 0 "" "".
Definition bodyAnyNow : WatchEventOptions.t :=
  WatchEventOptions.mk [] ["name"] 0 "" "".
Definition step200 : Collaborators World := collaborators 200.
Definition s4Request : WatchEventOptions.t :=
  WatchEventOptions.mk ["create"] [] 101 "" "".
Definition s6Request : WatchEventOptions.t :=
  WatchEventOptions.mk [] [] 5000 "" "".
Definition s7Request : WatchEventOptions.t :=
  WatchEventOptions.mk ["update"; "delete"] ["name"] 0 "host:head" "".
Definition knownChain (w : World) : Prop :=
  ∀ node, node ∈ chain w → ChainNode.EventType node ∈ knownEventTypes.

End Sim.

(** ** What a run calls and what it returns *)

(** Every call [m] adds to the log satisfies [P]. *)
Definition only {W A : Type} (P : Call → Prop) (m : M W A) : Prop :=
  ∀ s, ∃ l, calls (snd (m s)) = calls s ++ l ∧ Forall P l.

(** Every value [m] returns satisfies [Q]. *)
Definition ensures {W A : Type} (Q : A → Prop) (m : M W A) : Prop :=
  ∀ s a s', m s = (Ok a, s') → Q a.

Definition withCursor (opts : WatchEventOptions.t) (cursor : string)
    : WatchEventOptions.t :=
  WatchEventOptions.mk (WatchEventOptions.EventTypes opts)
                       (WatchEventOptions.Fields opts)
                       (WatchEventOptions.StartFrom opts)
                       cursor
                       (WatchEventOptions.Resource opts).

(** The two shapes of a successful answer: events that all carry a
    detail, or one entry without detail. *)
Definition answer_shape (resource : CursorType) (events : list WatchEventResp.t)
    : Prop :=
  Forall (λ r, WatchEventResp.Resource r = resource) events
  ∧ ((events ≠ [] ∧ Forall (λ r, is_Some (WatchEventResp.Detail r)) events)
     ∨ ∃ cursor, events = [WatchEventResp.mk cursor resource None]).

(** ** The calls of a request *)

(** The calls of one round of the cursor loop that sleeps and goes on. *)
Definition cursorRetry (step : Z) (startCursor : string) : list Call :=
  [CallGetNodesFromCursor step startCursor; CallNowUnix;
   CallSleep (250 * time_Millisecond)].

(** The calls of the round that ends the cursor loop. *)
Definition cursorLast (step : Z) (startCursor : string) (l : list Call) : Prop :=
  l = [CallGetNodesFromCursor step startCursor]
  ∨ l = [CallGetNodesFromCursor step startCursor; CallNowUnix]
  ∨ ∃ ks, l = [CallGetNodesFromCursor step startCursor; CallPipelineExec ks].

(** The calls of one round of the scan that goes on to the next window. *)
Definition scanNext (step : Z) (cursor : string) : list Call :=
  [CallSelectTimeout; CallGetNodesFromCursor step cursor].

(** The calls of the round that ends the scan. *)
Definition scanLast (step : Z) (cursor : string) (l : list Call) : Prop :=
  l = [CallSelectTimeout]
  ∨ l = [CallSelectTimeout; CallGetNodesFromCursor step cursor]
  ∨ (∃ ks, l = [CallSelectTimeout; CallGetNodesFromCursor step cursor;
                CallPipelineExec ks])
  ∨ ∃ k, l = [CallSelectTimeout; CallGetNodesFromCursor step cursor; CallCacheGet k].

(** ** A cache that goes down

    The in-memory world behind a budget of round trips: once the budget
    is used up every read of the cache fails.  The clock is not
    affected. *)
Module Flaky.

Record World := mkWorld { budget : nat; inner : Sim.World }.

Definition refused : error := "connection refused".

Definition guarded {A : Type} (op : Sim.World → (error + A) * Sim.World)
    (w : World) : (error + A) * World :=
  match budget w with
  | O => (inl refused, w)
  | S b => let '(r, w') := op (inner w) in (r, mkWorld b w')
  end.

#[export] Instance collaborators (step : Z) : Collaborators World := {|
  Chan := Z;
  NoEventCursor := "NoEventCursor";
  eventStep := step;
  CutJsonDataWithFields := Sim.cutJsonDataWithFields;
  Validate := Sim.validate;
  GetResourceKeyWithCursorType := Sim.getResourceKeyWithCursorType;
  world_Now_Unix := λ w, ((Sim.clock (inner w) `div` time_Second)%Z, w);
  world_After := λ d w, ((Sim.clock (inner w) + d)%Z, w);
  world_chan_ready := λ deadline w, ((deadline <=? Sim.clock (inner w))%Z, w);
  world_Sleep := λ d w,
    (tt, mkWorld (budget w)
           (Sim.mkWorld (Sim.clock (inner w) + d) (Sim.latency (inner w))
                        (Sim.chain (inner w)) (Sim.details (inner w))));
  world_getNodesFromCursor := λ stp cursor key, guarded (Sim.sim_getNodesFromCursor stp cursor key);
  world_getHeadTailNodeTargetNode := λ key, guarded (Sim.sim_getHeadTailNodeTargetNode key);
  world_getLatestEventDetail := λ key, guarded (Sim.sim_getLatestEventDetail key);
  world_cache_Get := λ k, guarded (Sim.sim_cache_Get k);
  world_pipeline_Exec := λ ks, guarded (Sim.sim_pipeline_Exec ks)
|}.

Definition step2 : Collaborators World := collaborators 2.

(** The chain A, B, C behind a cache that answers [n] times. *)
Definition abcDownAfter (n : nat) : World := mkWorld n Sim.abcWorld.

End Flaky.

(** More scenarios on the in-memory world. *)
Module Scenario.

(** The chain A, B, C after the detail of C has expired. *)
Definition expiredWorld : Sim.World :=
  Sim.mkWorld (150 * time_Second) time_Millisecond [Sim.nodeA; Sim.nodeB; Sim.nodeC]
    (<["host:detail:A" := Sim.detailOf "a"]>
       (<["host:detail:B" := Sim.detailOf "b"]> ∅)).

(** A cursor that is not in the chain. *)
Definition afterUnknown : WatchEventOptions.t :=
  WatchEventOptions.mk [] [] 0 "Z" "host".


End Scenario.

(** ** A clock that ticks

    [T w] is the time of the world [w] in nanoseconds and [Good k w] says
    that [w] is fit for [k] more calls: the clock is past the epoch and
    its readings fit [int64]; reading the clock gives its seconds; no call
    sets the clock back; sleeping 250 ms advances it by that much at
    least. *)
Class Ticking {W : Type} `{Collaborators W}
    (T : W → Z) (Good : nat → W → Prop) : Prop := {
  ticking_range :
    ∀ k w, Good k w → (0 ≤ T w)%Z ∧ is_int64 (T w `div` time_Second);
  ticking_Now_Unix :
    ∀ k w, Good (S k) w →
      fst (world_Now_Unix w) = (T w `div` time_Second)%Z
      ∧ (T w ≤ T (snd (world_Now_Unix w)))%Z
      ∧ Good k (snd (world_Now_Unix w));
  ticking_getNodesFromCursor :
    ∀ k step c key w, Good (S k) w →
      (T w ≤ T (snd (world_getNodesFromCursor step c key w)))%Z
      ∧ Good k (snd (world_getNodesFromCursor step c key w));
  ticking_Sleep :
    ∀ k w, Good (S k) w →
      (T w + 250 * time_Millisecond
       ≤ T (snd (world_Sleep (250 * time_Millisecond) w)))%Z
      ∧ Good k (snd (world_Sleep (250 * time_Millisecond) w))
}.

(** A request has returned: with events or with an error. *)
Definition returned {A S : Type} (r : Outcome A * S) : Prop :=
  (∃ a, fst r = Ok a) ∨ (∃ e, fst r = Err e).

(** The in-memory world is fit for [k] more calls when its clock cannot
    leave the [int64] nanoseconds within them. *)
Definition simGood (k : nat) (w : Sim.World) : Prop :=
  (0 ≤ Sim.latency w
   ∧ 0 ≤ Sim.clock w
   ∧ Sim.clock w + Z.of_nat k * (Sim.latency w + 250 * time_Millisecond) ≤ int64_max)%Z.

From stdpp Require pretty.

(** * The instance client

    The first Go file of [inst.go] (package [inst]) is the client of the
    topo server's instance API: ten methods that each describe one request
    to the fluent REST builder [t.client], call [Do] and decode the answer
    into a fresh result, which they return with the error of that chain.
    The builder is not part of the source.  A method is modelled by the
    request it has described when [Do] is called: the HTTP verb, the
    context, the body, the sub-path format with its arguments, and the
    headers.  [SubResourcef] is taken to fill its format with its
    arguments as Go's [fmt.Sprintf] does. *)
Module Inst.

(** [t.client.Post()], [t.client.Delete()], [t.client.Put()]. *)
Inductive Verb : Type := Post | Delete | Put.

(** An argument of [SubResourcef]: the methods pass Go strings, for the
    verb [%s], and an [int64], for the verb [%d]. *)
Inductive Arg : Type :=
  | ArgString (s : string)
  | ArgInt64 (n : Z).

Record Request (Ctx Header Body : Type) : Type := mkRequest {
  verb : Verb;
  context : Ctx;
  body : option Body;            (* [Body(nil)] is [None] *)
  subPath : string;
  subPathArgs : list Arg;
  headers : Header
}.
Arguments mkRequest {Ctx Header Body}.
Arguments verb {Ctx Header Body}.
Arguments context {Ctx Header Body}.
Arguments body {Ctx Header Body}.
Arguments subPath {Ctx Header Body}.
Arguments subPathArgs {Ctx Header Body}.
Arguments headers {Ctx Header Body}.

Section Client.
Context {Ctx Header Body : Type}.

Definition CreateInst (ctx : Ctx) (ownerID objID : string) (h : Header) (dat : Body)
    : Request Ctx Header Body :=
  mkRequest Post ctx (Some dat) "/inst/%s/%s" [ArgString ownerID; ArgString objID] h.

Definition DeleteInst (ctx : Ctx) (ownerID objID : string) (instID : Z) (h : Header)
    : Request Ctx Header Body :=
  mkRequest Delete ctx None "/inst/%s/%s/%d"
    [ArgString ownerID; ArgString objID; ArgInt64 instID] h.

Definition UpdateInst (ctx : Ctx) (ownerID objID : string) (instID : Z) (h : Header)
    (dat : Body) : Request Ctx Header Body :=
  mkRequest Put ctx (Some dat) "/inst/%s/%s/%d"
    [ArgString ownerID; ArgString objID; ArgInt64 instID] h.

Definition SelectInsts (ctx : Ctx) (ownerID objID : string) (h : Header) (s : Body)
    : Request Ctx Header Body :=
  mkRequest Post ctx (Some s) "/inst/search/%s/%s"
    [ArgString ownerID; ArgString objID] h.

Definition SelectInstsAndAsstDetail (ctx : Ctx) (ownerID objID : string) (h : Header)
    (s : Body) : Request Ctx Header Body :=
  mkRequest Post ctx (Some s) "/inst/search/owner/%s/object/%s/detail"
    [ArgString ownerID; ArgString objID] h.

Definition InstSearch (ctx : Ctx) (ownerID objID : string) (h : Header) (s : Body)
    : Request Ctx Header Body :=
  mkRequest Post ctx (Some s) "/inst/search/owner/%s/object/%s"
    [ArgString ownerID; ArgString objID] h.

Definition SelectInstsByAssociation (ctx : Ctx) (ownerID objID : string) (h : Header)
    (p : Body) : Request Ctx Header Body :=
  mkRequest Post ctx (Some p) "/inst/association/search/owner/%s/object/%s"
    [ArgString ownerID; ArgString objID] h.

Definition SelectInst (ctx : Ctx) (ownerID objID instID : string) (h : Header) (p : Body)
    : Request Ctx Header Body :=
  mkRequest Post ctx (Some p) "/inst/search/%s/%s/%s"
    [ArgString ownerID; ArgString objID; ArgString instID] h.

Definition SelectTopo (ctx : Ctx) (ownerID objID instID : string) (h : Header) (p : Body)
    : Request Ctx Header Body :=
  mkRequest Post ctx (Some p) "/inst/search/topo/owner/%s/object/%s/inst/%s"
    [ArgString ownerID; ArgString objID; ArgString instID] h.

Definition SelectAssociationTopo (ctx : Ctx) (ownerID objID instID : string) (h : Header)
    (p : Body) : Request Ctx Header Body :=
  mkRequest Post ctx (Some p) "/inst/association/topo/search/owner/%s/object/%s/inst/%s"
    [ArgString ownerID; ArgString objID; ArgString instID] h.

End Client.

(** Go's [fmt.Sprintf] on the fragment these formats use: literal
    characters, [%s] with a string and [%d] with an integer, as many
    arguments as verbs.  Anything else ([None]) is outside the model. *)
Definition formatArg (v : ascii) (a : Arg) : option string :=
  match a with
  | ArgString s => if Ascii.eqb v "s" then Some s else None
  | ArgInt64 n => if Ascii.eqb v "d" then Some (pretty.pretty n) else None
  end.

Fixpoint Sprintf (format : string) (args : list Arg) : option string :=
  match format with
  | EmptyString => match args with [] => Some EmptyString | _ => None end
  | String c rest =>
      if Ascii.eqb c "%" then
        match rest, args with
        | String v rest', a :: args' =>
            match formatArg v a, Sprintf rest' args' with
            | Some s, Some t => Some (s +:+ t)
            | _, _ => None
            end
        | _, _ => None
        end
      else
        match Sprintf rest args with
        | Some t => Some (String c t)
        | None => None
        end
  end.

(** Where a request goes: its verb and its sub-path with the arguments
    filled in. *)
Definition route {Ctx Header Body} (r : Request Ctx Header Body) : option (Verb * string) :=
  match Sprintf (subPath r) (subPathArgs r) with
  | Some path => Some (verb r, path)
  | None => None
  end.

(** A call of the client: the method and the identifiers it is given. *)
Inductive Operation : Type :=
  | OpCreateInst (ownerID objID : string)
  | OpDeleteInst (ownerID objID : string) (instID : Z)
  | OpUpdateInst (ownerID objID : string) (instID : Z)
  | OpSelectInsts (ownerID objID : string)
  | OpSelectInstsAndAsstDetail (ownerID objID : string)
  | OpInstSearch (ownerID objID : string)
  | OpSelectInstsByAssociation (ownerID objID : string)
  | OpSelectInst (ownerID objID instID : string)
  | OpSelectTopo (ownerID objID instID : string)
  | OpSelectAssociationTopo (ownerID objID instID : string).

Definition request {Ctx Header Body} (ctx : Ctx) (h : Header) (dat : Body)
    (op : Operation) : Request Ctx Header Body :=
  match op with
  | OpCreateInst ownerID objID => CreateInst ctx ownerID objID h dat
  | OpDeleteInst ownerID objID instID => DeleteInst ctx ownerID objID instID h
  | OpUpdateInst ownerID objID instID => UpdateInst ctx ownerID objID instID h dat
  | OpSelectInsts ownerID objID => SelectInsts ctx ownerID objID h dat
  | OpSelectInstsAndAsstDetail ownerID objID =>
      SelectInstsAndAsstDetail ctx ownerID objID h dat
  | OpInstSearch ownerID objID => InstSearch ctx ownerID objID h dat
  | OpSelectInstsByAssociation ownerID objID =>
      SelectInstsByAssociation ctx ownerID objID h dat
  | OpSelectInst ownerID objID instID => SelectInst ctx ownerID objID instID h dat
  | OpSelectTopo ownerID objID instID => SelectTopo ctx ownerID objID instID h dat
  | OpSelectAssociationTopo ownerID objID instID =>
      SelectAssociationTopo ctx ownerID objID instID h dat
  end.

(** The string identifiers of a call. *)
Definition ids (op : Operation) : list string :=
  match op with
  | OpCreateInst ownerID objID | OpDeleteInst ownerID objID _
  | OpUpdateInst ownerID objID _ | OpSelectInsts ownerID objID
  | OpSelectInstsAndAsstDetail ownerID objID | OpInstSearch ownerID objID
  | OpSelectInstsByAssociation ownerID objID => [ownerID; objID]
  | OpSelectInst ownerID objID instID | OpSelectTopo ownerID objID instID
  | OpSelectAssociationTopo ownerID objID instID => [ownerID; objID; instID]
  end.

(** A string without a slash. *)
Fixpoint plain (s : string) : bool :=
  match s with
  | EmptyString => true
  | String c r => negb (Ascii.eqb c "/") && plain r
  end.

(** The segments of a path, split at its slashes. *)
Fixpoint segments (s : string) : list string :=
  match s with
  | EmptyString => [EmptyString]
  | String c r =>
      if Ascii.eqb c "/" then EmptyString :: segments r
      else match segments r with
           | seg :: segs => String c seg :: segs
           | [] => [String c EmptyString]
           end
  end.

(** The verb and the path segments of a call. *)
Definition segmentsOf (op : Operation) : Verb * list string :=
  match op with
  | OpCreateInst ownerID objID => (Post, [""; "inst"; ownerID; objID])
  | OpDeleteInst ownerID objID instID =>
      (Delete, [""; "inst"; ownerID; objID; pretty.pretty instID])
  | OpUpdateInst ownerID objID instID =>
      (Put, [""; "inst"; ownerID; objID; pretty.pretty instID])
  | OpSelectInsts ownerID objID => (Post, [""; "inst"; "search"; ownerID; objID])
  | OpSelectInstsAndAsstDetail ownerID objID =>
      (Post, [""; "inst"; "search"; "owner"; ownerID; "object"; objID; "detail"])
  | OpInstSearch ownerID objID =>
      (Post, [""; "inst"; "search"; "owner"; ownerID; "object"; objID])
  | OpSelectInstsByAssociation ownerID objID =>
      (Post, [""; "inst"; "association"; "search"; "owner"; ownerID; "object"; objID])
  | OpSelectInst ownerID objID instID =>
      (Post, [""; "inst"; "search"; ownerID; objID; instID])
  | OpSelectTopo ownerID objID instID =>
      (Post, [""; "inst"; "search"; "topo"; "owner"; ownerID; "object"; objID;
              "inst"; instID])
  | OpSelectAssociationTopo ownerID objID instID =>
      (Post, [""; "inst"; "association"; "topo"; "search"; "owner"; ownerID;
              "object"; objID; "inst"; instID])
  end.

End Inst.

(** * Properties *)

(** ** The event-type filter *)

Section Filter.

Lemma foldl_snoc_filter {A} (P : A → Prop) `{∀ x, Decision (P x)}
    (f : list A → A → list A) (l acc : list A) :
  (∀ acc x, f acc x = if decide (P x) then acc ++ [x] else acc) →
  foldl f acc l = acc ++ filter P l.
Proof.
  intros Hf. revert acc.
  induction l as [|x l IH]; intros acc; simpl.
  - by rewrite app_nil_r.
  - rewrite IH, Hf, filter_cons.
    destruct (decide (P x)); [by rewrite <- app_assoc | done].
Qed.

Lemma typeset_lookup (typs : list EventType) (m0 : gmap EventType bool) (t : EventType) :
  is_Some (foldl (λ (m : gmap EventType bool) t, <[t := true]> m) m0 typs !! t)
  ↔ t ∈ typs ∨ is_Some (m0 !! t).
Proof.
  revert m0. induction typs as [|u typs IH]; intros m0; simpl.
  - rewrite elem_of_nil. tauto.
  - rewrite IH, elem_of_cons, lookup_insert_is_Some.
    destruct (decide (u = t)); intuition (subst; auto; congruence).
Qed.

Lemma getHitNodeWithEventType_nil (nodes : list ChainNode.t) :
  getHitNodeWithEventType nodes [] = nodes.
Proof. reflexivity. Qed.

Lemma getHitNodeWithEventType_filter (nodes : list ChainNode.t) (typs : list EventType) :
  typs ≠ [] →
  getHitNodeWithEventType nodes typs
  = filter (λ node, ChainNode.EventType node ∈ typs) nodes.
Proof.
  intros Hne. unfold getHitNodeWithEventType.
  destruct (decide (length typs = 0)) as [Hl|_].
  { by apply nil_length_inv in Hl. }
  destruct (decide (length nodes = 0)) as [Hl|_].
  { apply nil_length_inv in Hl. by subst. }
  etrans; [apply (foldl_snoc_filter (λ node, ChainNode.EventType node ∈ typs))|done].
  intros acc x.
  pose proof (typeset_lookup typs ∅ (ChainNode.EventType x)) as Hm.
  rewrite lookup_empty in Hm.
  destruct (foldl _ _ typs !! ChainNode.EventType x) as [b|] eqn:E.
  - rewrite decide_True; [done|].
    destruct (proj1 Hm) as [?|[? ?]]; [by eexists|done|done].
  - rewrite decide_False; [done|]. intros Hin.
    destruct (proj2 Hm) as [? ?]; [by left|done].
Qed.

Lemma getHitNodeWithEventType_all (nodes : list ChainNode.t) (typs : list EventType) :
  (∀ node, node ∈ nodes → ChainNode.EventType node ∈ typs) →
  getHitNodeWithEventType nodes typs = nodes.
Proof.
  intros Hall. destruct typs as [|t typs]; [done|].
  rewrite getHitNodeWithEventType_filter by done.
  induction nodes as [|n nodes IH]; [done|].
  rewrite filter_cons, decide_True by (apply Hall; left).
  f_equal. apply IH. intros node Hin. apply Hall. by right.
Qed.

End Filter.

(** ** Wrap-around *)

Section Int64.
Local Open Scope Z_scope.

Lemma wrap64_small z : is_int64 z → wrap64 z = z.
Proof.
  unfold is_int64, int64_min, int64_max, wrap64. intros Hz.
  rewrite Z.mod_small; lia.
Qed.

Lemma wrap64_above z : 2 ^ 63 ≤ z < 2 ^ 64 → wrap64 z = z - 2 ^ 64.
Proof.
  unfold wrap64. intros Hz.
  replace (z + 2 ^ 63) with ((z - 2 ^ 63) + 1 * 2 ^ 64) by lia.
  rewrite Z.mod_add by lia. rewrite Z.mod_small; lia.
Qed.

(** Elapsed seconds between two readings of a clock that is past the
    epoch are computed exactly. *)
Lemma sub64_exact now start :
  is_int64 now → 0 ≤ start → start ≤ now → sub64 now start = now - start.
Proof.
  unfold sub64, is_int64, int64_min, int64_max. intros.
  apply wrap64_small. unfold is_int64, int64_min, int64_max. lia.
Qed.

(** The out-of-range test on the wrapped difference agrees with the test
    on the exact difference when the clock is past the epoch. *)
Lemma out_of_range_test now startFrom ttl :
  is_int64 now → is_int64 startFrom → is_int64 ttl → 0 ≤ now →
  (sub64 now startFrom <? 0) || (sub64 now startFrom >? ttl) = true
  ↔ now - startFrom < 0 ∨ now - startFrom > ttl.
Proof.
  unfold is_int64, int64_min, int64_max, sub64. intros Hn Hs Ht H0.
  rewrite orb_true_iff, Z.ltb_lt, Z.gtb_gt.
  destruct (Z_lt_le_dec (now - startFrom) (2 ^ 63)) as [Hlt|Hge].
  - rewrite wrap64_small by (unfold is_int64, int64_min, int64_max; lia). lia.
  - rewrite wrap64_above by lia. lia.
Qed.

End Int64.

(** ** Loops *)

Section Loops.
Context {W I R : Type}.
Implicit Types (body : I → M W (I + R)) (s : St W).

Lemma iter_continue fuel body i s i' s' :
  body i s = (Ok (inl i'), s') →
  iter (S fuel) body i s = iter fuel body i' s'.
Proof. intros Hb. simpl. by rewrite Hb. Qed.

Lemma iter_return fuel body i s r s' :
  body i s = (Ok (inr r), s') →
  iter (S fuel) body i s = (Ok r, s').
Proof. intros Hb. simpl. by rewrite Hb. Qed.

Lemma iter_error fuel body i s e s' :
  body i s = (Err e, s') →
  iter (S fuel) body i s = (Err e, s').
Proof. intros Hb. simpl. by rewrite Hb. Qed.

(** After [n] continuing rounds the loop is where [rounds] says. *)
Lemma rounds_iter n fuel body i s i' s' :
  rounds n body i s = Some (i', s') →
  iter (n + fuel) body i s = iter fuel body i' s'.
Proof.
  revert i s. induction n as [|n IH]; intros i s; simpl.
  - by intros [= -> ->].
  - destruct (body i s) as [[[j|r]|e|msg|] s1]; try done. apply IH.
Qed.

End Loops.

(** ** Running the service *)

Lemma getHitNodeWithEventType_passes (nodes : list ChainNode.t) (typs : list EventType) :
  getHitNodeWithEventType nodes typs = filter (type_passes typs) nodes.
Proof.
  destruct typs as [|t typs].
  - rewrite getHitNodeWithEventType_nil. symmetry.
    induction nodes as [|n nodes IH]; [done|].
    rewrite filter_cons, decide_True by (by left). by f_equal.
  - rewrite getHitNodeWithEventType_filter by done.
    apply list_filter_iff. intros node. unfold type_passes. split; [by right|].
    by intros [?|?].
Qed.

Section Steps.
Context {W : Type} `{Collaborators W}.
Implicit Types (s : St W) (key : Key.t) (opts : WatchEventOptions.t).

Lemma call_run {A} (c : Call) (op : W → A * W) s a w' :
  op (world s) = (a, w') →
  call c op s = (Ok a, mkSt w' (calls s ++ [c])).
Proof. intros Hop. unfold call. by rewrite Hop. Qed.

Lemma call_checked_ok {A} (c : Call) (op : W → (error + A) * W) s a w' :
  op (world s) = (inr a, w') →
  call_checked c op s = (Ok a, mkSt w' (calls s ++ [c])).
Proof. intros Hop. unfold call_checked, bind. by rewrite (call_run _ _ _ _ _ Hop). Qed.

Lemma call_checked_err {A} (c : Call) (op : W → (error + A) * W) s e w' :
  op (world s) = (inl e, w') →
  call_checked c op s = (Err e, mkSt w' (calls s ++ [c])).
Proof. intros Hop. unfold call_checked, bind. by rewrite (call_run _ _ _ _ _ Hop). Qed.

Lemma bind_ok {A B} (m : M W A) (k : A → M W B) s a s' :
  m s = (Ok a, s') → bind m k s = k a s'.
Proof. intros Hm. unfold bind. by rewrite Hm. Qed.

Lemma bind_err {A B} (m : M W A) (k : A → M W B) s e s' :
  m s = (Err e, s') → bind m k s = (Err e, s').
Proof. intros Hm. unfold bind. by rewrite Hm. Qed.

Lemma matchedNodes_filter opts (hitNodes : list ChainNode.t) :
  matchedNodes opts hitNodes
  = filter (not_before (WatchEventOptions.StartFrom opts)) hitNodes.
Proof.
  unfold matchedNodes.
  etrans; [apply (foldl_snoc_filter (not_before (WatchEventOptions.StartFrom opts)))|done].
  intros acc x. unfold not_before.
  destruct (decide _) as [Hle|Hgt].
  - by rewrite (proj2 (Z.geb_le _ _) Hle).
  - destruct (Z.geb_spec (Sec (ChainNode.ClusterTime x)) (WatchEventOptions.StartFrom opts)); [lia|done].
Qed.

Lemma getEventsWithCursorNodes_ok opts hitNodes key s vals w' :
  world_pipeline_Exec (detailKeys key hitNodes) (world s) = (inr vals, w') →
  getEventsWithCursorNodes opts hitNodes key s
  = (Ok (imap (λ idx node, hitResp opts node (nth idx vals "")) hitNodes),
     mkSt w' (calls s ++ [CallPipelineExec (detailKeys key hitNodes)])).
Proof.
  intros Hex. unfold getEventsWithCursorNodes.
  by rewrite (bind_ok _ _ _ _ _ (call_checked_ok _ _ _ _ _ Hex)).
Qed.

Lemma watchFromNow_ok key opts s node detail w' :
  world_getLatestEventDetail key (world s) = (inr (node, detail), w') →
  watchFromNow key opts s
  = (Ok (if decide (type_passes (WatchEventOptions.EventTypes opts) node)
         then hitResp opts node detail else missResp opts),
     mkSt w' (calls s ++ [CallGetLatestEventDetail])).
Proof.
  intros Hget. unfold watchFromNow, getLatestEventDetail.
  rewrite (bind_ok _ _ _ _ _ (call_checked_ok _ _ _ _ _ Hget)).
  rewrite getHitNodeWithEventType_passes, filter_cons, filter_nil.
  by destruct (decide (type_passes _ node)).
Qed.

End Steps.

(** ** The StartFrom strategy, statement by statement *)

Section StartFromSteps.
Context {W : Type} `{Collaborators W}.
Implicit Types (s : St W) (key : Key.t) (opts : WatchEventOptions.t)
               (nodes : list ChainNode.t).

Lemma emptyChainCheck_nonempty key opts h t s :
  ChainNode.NextCursor h ≠ Key.TailKey key →
  ChainNode.NextCursor t ≠ Key.HeadKey key →
  emptyChainCheck key opts h t s = (Ok tt, s).
Proof.
  intros Hh Ht. unfold emptyChainCheck.
  by rewrite !bool_decide_eq_false_2.
Qed.

Lemma emptyChainCheck_flagged key opts h t s now w' :
  ChainNode.NextCursor h = Key.TailKey key
  ∨ ChainNode.NextCursor t = Key.HeadKey key →
  world_Now_Unix (world s) = (now, w') →
  emptyChainCheck key opts h t s
  = (if ((sub64 now (WatchEventOptions.StartFrom opts) <? 0)
         || (sub64 now (WatchEventOptions.StartFrom opts) >? Key.TTLSeconds key))%Z
     then Err "bk_start_from value is out of range" else Ok tt,
     mkSt w' (calls s ++ [CallNowUnix])).
Proof.
  intros Hflag Hnow. unfold emptyChainCheck.
  assert (bool_decide (ChainNode.NextCursor h = Key.TailKey key)
          || bool_decide (ChainNode.NextCursor t = Key.HeadKey key) = true) as ->.
  { apply orb_true_iff. destruct Hflag; [left|right]; by apply bool_decide_eq_true_2. }
  unfold time_Now_Unix. rewrite (bind_ok _ _ _ _ _ (call_run _ _ _ _ _ Hnow)).
  by destruct (_ || _).
Qed.

(** The statements after the head and tail targets have been read and
    the empty-chain check has let the request through. *)
Lemma watchWithStartFrom_after_check fuel key opts s h t w1 s1 :
  world_getHeadTailNodeTargetNode key (world s) = (inr (h, t), w1) →
  emptyChainCheck key opts h t (mkSt w1 (calls s ++ [CallGetHeadTailNodeTargetNode]))
  = (Ok tt, s1) →
  watchWithStartFrom fuel key opts s
  = if (Sec (ChainNode.ClusterTime h) >? WatchEventOptions.StartFrom opts)%Z then
      (Err "bk_start_from value is too small", s1)
    else if (Sec (ChainNode.ClusterTime t) <? WatchEventOptions.StartFrom opts)%Z then
      (latestEvent <- watchFromNow key opts ;; ret [latestEvent]) s1
    else
      (timeout <- time_After (25 * time_Second) ;;
       iter fuel (scanRound key opts timeout) (Key.HeadKey key)) s1.
Proof.
  intros Hht Hchk. unfold watchWithStartFrom, getHeadTailNodeTargetNode.
  rewrite (bind_ok _ _ _ _ _ (call_checked_ok _ _ _ _ _ Hht)).
  rewrite (bind_ok _ _ _ _ _ Hchk).
  destruct (_ >? _)%Z; [done|]. by destruct (_ <? _)%Z.
Qed.

Lemma watchWithStartFrom_check_fails fuel key opts s h t w1 e s1 :
  world_getHeadTailNodeTargetNode key (world s) = (inr (h, t), w1) →
  emptyChainCheck key opts h t (mkSt w1 (calls s ++ [CallGetHeadTailNodeTargetNode]))
  = (Err e, s1) →
  watchWithStartFrom fuel key opts s = (Err e, s1).
Proof.
  intros Hht Hchk. unfold watchWithStartFrom, getHeadTailNodeTargetNode.
  rewrite (bind_ok _ _ _ _ _ (call_checked_ok _ _ _ _ _ Hht)).
  by rewrite (bind_err _ _ _ _ _ Hchk).
Qed.

(** Entering the scan loop. *)
Lemma watchWithStartFrom_scan fuel key opts s h t w1 s1 timeout w2 :
  world_getHeadTailNodeTargetNode key (world s) = (inr (h, t), w1) →
  emptyChainCheck key opts h t (mkSt w1 (calls s ++ [CallGetHeadTailNodeTargetNode]))
  = (Ok tt, s1) →
  (Sec (ChainNode.ClusterTime h) ≤ WatchEventOptions.StartFrom opts
   ≤ Sec (ChainNode.ClusterTime t))%Z →
  world_After (25 * time_Second) (world s1) = (timeout, w2) →
  watchWithStartFrom fuel key opts s
  = iter fuel (scanRound key opts timeout) (Key.HeadKey key)
      (mkSt w2 (calls s1 ++ [CallAfter (25 * time_Second)])).
Proof.
  intros Hht Hchk [Hlo Hhi] Hafter.
  rewrite (watchWithStartFrom_after_check _ _ _ _ _ _ _ _ Hht Hchk).
  destruct (Z.gtb_spec (Sec (ChainNode.ClusterTime h)) (WatchEventOptions.StartFrom opts)); [lia|].
  destruct (Z.ltb_spec (Sec (ChainNode.ClusterTime t)) (WatchEventOptions.StartFrom opts)); [lia|].
  unfold time_After. by rewrite (bind_ok _ _ _ _ _ (call_run _ _ _ _ _ Hafter)).
Qed.

(** *** One round of the scan *)

Lemma scanRound_timeout key opts timeout c s w1 :
  world_chan_ready timeout (world s) = (true, w1) →
  scanRound key opts timeout c s
  = (Err "scan the event cost too long time", mkSt w1 (calls s ++ [CallSelectTimeout])).
Proof.
  intros Hsel. unfold scanRound, select_ready.
  by rewrite (bind_ok _ _ _ _ _ (call_run _ _ _ _ _ Hsel)).
Qed.

Lemma scanRound_window key opts timeout c s w1 nodes w2 :
  world_chan_ready timeout (world s) = (false, w1) →
  world_getNodesFromCursor eventStep c key w1 = (inr nodes, w2) →
  let s2 := mkSt w2 (calls s ++ [CallSelectTimeout; CallGetNodesFromCursor eventStep c]) in
  let matched := filter (not_before (WatchEventOptions.StartFrom opts))
                   (filter (type_passes (WatchEventOptions.EventTypes opts)) nodes) in
  scanRound key opts timeout c s
  = match nodes with
    | [] => (Ok (inr [missResp opts]), s2)
    | _ :: _ =>
        match matched with
        | _ :: _ => (resp <- getEventsWithCursorNodes opts matched key ;; ret (inr resp)) s2
        | [] =>
            match last nodes with
            | None => (Panic "runtime error: index out of range", s2)
            | Some lastNode =>
                if decide (ChainNode.NextCursor lastNode = Key.TailKey key) then
                  (detail <- cache_Get (Key.DetailKey key (ChainNode.Cursor lastNode)) ;;
                   ret (inr [WatchEventResp.mk (ChainNode.Cursor lastNode)
                               (WatchEventOptions.Resource opts) (Some detail)])) s2
                else (Ok (inl (ChainNode.Cursor lastNode)), s2)
            end
        end
    end.
Proof.
  intros Hsel Hget s2 matched. unfold scanRound, select_ready, getNodesFromCursor.
  rewrite (bind_ok _ _ _ _ _ (call_run _ _ _ _ _ Hsel)).
  assert (Hget' : world_getNodesFromCursor eventStep c key
                    (world (mkSt w1 (calls s ++ [CallSelectTimeout]))) = (inr nodes, w2)) by done.
  rewrite (bind_ok _ _ _ _ _ (call_checked_ok _ _ _ _ _ Hget')).
  cbn [calls]. rewrite <- app_assoc. cbn [app]. fold s2.
  rewrite matchedNodes_filter, getHitNodeWithEventType_passes. fold matched.
  destruct nodes as [|n0 nodes']; [done|].
  rewrite decide_False by done.
  destruct matched as [|m0 matched'].
  - rewrite decide_False by (intros Hne; by apply Hne).
    rewrite last_lookup. replace (length (n0 :: nodes') - 1) with (pred (length (n0 :: nodes'))) by (simpl; lia).
    destruct (_ !! _) as [lastNode|]; [|done].
    by destruct (decide _).
  - by rewrite decide_True by done.
Qed.

End StartFromSteps.

(** ** The cursor strategy and the handler, statement by statement *)

Section CursorSteps.
Context {W : Type} `{Collaborators W}.
Implicit Types (s : St W) (key : Key.t) (opts : WatchEventOptions.t)
               (nodes : list ChainNode.t).

Lemma cursorRound_hit key opts startCursor start s nodes w1 :
  world_getNodesFromCursor eventStep startCursor key (world s) = (inr nodes, w1) →
  let hit := filter (type_passes (WatchEventOptions.EventTypes opts)) nodes in
  hit ≠ [] →
  cursorRound key opts startCursor start tt s
  = (resp <- getEventsWithCursorNodes opts hit key ;; ret (inr resp))
      (mkSt w1 (calls s ++ [CallGetNodesFromCursor eventStep startCursor])).
Proof.
  intros Hget hit Hhit. unfold cursorRound, getNodesFromCursor.
  rewrite (bind_ok _ _ _ _ _ (call_checked_ok _ _ _ _ _ Hget)).
  rewrite getHitNodeWithEventType_passes. fold hit.
  destruct nodes as [|n0 nodes']; [done|].
  rewrite decide_False by done.
  rewrite decide_True; [done|]. by destruct hit.
Qed.

(** A round whose window holds nothing for the client: the clock is read
    and either the deadline answer is given or the loop sleeps. *)
Lemma cursorRound_nohit key opts startCursor start s nodes w1 now w2 :
  world_getNodesFromCursor eventStep startCursor key (world s) = (inr nodes, w1) →
  filter (type_passes (WatchEventOptions.EventTypes opts)) nodes = [] →
  world_Now_Unix w1 = (now, w2) →
  let s2 := mkSt w2 (calls s ++ [CallGetNodesFromCursor eventStep startCursor; CallNowUnix]) in
  cursorRound key opts startCursor start tt s
  = if (sub64 now start >? timeoutWatchLoopSeconds)%Z then
      match last nodes with
      | None => (Ok (inr [missResp opts]), s2)
      | Some lastNode =>
          (Ok (inr [WatchEventResp.mk (ChainNode.Cursor lastNode)
                      (WatchEventOptions.Resource opts) None]), s2)
      end
    else (_ <- time_Sleep loopInternal ;; ret (inl tt)) s2.
Proof.
  intros Hget Hhit Hnow s2. unfold cursorRound, getNodesFromCursor.
  rewrite (bind_ok _ _ _ _ _ (call_checked_ok _ _ _ _ _ Hget)).
  rewrite getHitNodeWithEventType_passes, Hhit.
  assert (Hnow' : world_Now_Unix
            (world (mkSt w1 (calls s ++ [CallGetNodesFromCursor eventStep startCursor])))
          = (now, w2)) by done.
  destruct nodes as [|n0 nodes'].
  - rewrite decide_True by done. unfold time_Now_Unix.
    rewrite (bind_ok _ _ _ _ _ (call_run _ _ _ _ _ Hnow')).
    cbn [calls]. rewrite <- app_assoc. cbn [app]. fold s2.
    by destruct (_ >? _)%Z.
  - rewrite decide_False by done. rewrite decide_False by (intros Hne; by apply Hne).
    unfold time_Now_Unix.
    rewrite (bind_ok _ _ _ _ _ (call_run _ _ _ _ _ Hnow')).
    cbn [calls]. rewrite <- app_assoc. cbn [app]. fold s2.
    destruct (_ >? _)%Z; [|done].
    rewrite last_lookup.
    replace (length (n0 :: nodes') - 1) with (pred (length (n0 :: nodes'))) by (simpl; lia).
    destruct (_ !! _) as [lastNode|] eqn:E; [done|].
    apply lookup_ge_None in E. simpl in E. lia.
Qed.

Lemma watchWithCursor_loop fuel key opts s start w1 :
  world_Now_Unix (world s) = (start, w1) →
  watchWithCursor fuel key opts s
  = iter fuel
      (cursorRound key opts
         (if decide (WatchEventOptions.Cursor opts = NoEventCursor)
          then Key.HeadKey key else WatchEventOptions.Cursor opts) start) tt
      (mkSt w1 (calls s ++ [CallNowUnix])).
Proof.
  intros Hnow. unfold watchWithCursor, time_Now_Unix.
  by rewrite (bind_ok _ _ _ _ _ (call_run _ _ _ _ _ Hnow)).
Qed.

(** *** The handler *)

Lemma try_respond {A} (wrap : A → HttpResponse) (m : M W A) s :
  (r <- try m ;;
   match r with
   | inl err => ret inputInvalid
   | inr a => ret (wrap a)
   end) s = respond wrap (m s).
Proof. unfold bind, try, respond. by destruct (m s) as [[a|e|msg|] s']. Qed.

Lemma WatchEvent_dispatch fuel resource decoded key s :
  Validate (withResource decoded resource) = None →
  GetResourceKeyWithCursorType resource = inr key →
  WatchEvent fuel resource (inr decoded) s
  = if decide (String.length (WatchEventOptions.Cursor decoded) ≠ 0) then
      respond WriteEntity (watchWithCursor fuel key (withResource decoded resource) s)
    else if decide (WatchEventOptions.StartFrom decoded ≠ 0%Z) then
      respond WriteEntity (watchWithStartFrom fuel key (withResource decoded resource) s)
    else
      respond (λ events, WriteEntity [events])
              (watchFromNow key (withResource decoded resource) s).
Proof.
  intros Hval Hkey. unfold WatchEvent. rewrite Hval.
  cbn [withResource WatchEventOptions.Resource WatchEventOptions.Cursor
       WatchEventOptions.StartFrom].
  rewrite Hkey.
  destruct (decide (String.length _ ≠ 0)); [apply (try_respond WriteEntity)|].
  destruct (decide (_ ≠ 0%Z)); [apply (try_respond WriteEntity)|].
  apply (try_respond (λ events, WriteEntity [events])).
Qed.

End CursorSteps.

(** ** The index of the last node is always in range *)

Section NoPanic.
Context {W : Type} `{Collaborators W}.
Implicit Types (s : St W) (key : Key.t) (opts : WatchEventOptions.t).

Lemma last_index_in_range (nodes : list ChainNode.t) :
  length nodes ≠ 0 → is_Some (nodes !! (length nodes - 1)).
Proof. intros Hlen. apply lookup_lt_is_Some. lia. Qed.

Lemma scanRound_no_panic key opts timeout c s msg :
  fst (scanRound key opts timeout c s) ≠ Panic msg.
Proof.
  unfold scanRound, select_ready, getNodesFromCursor, getEventsWithCursorNodes,
    cache_Get, call_checked, bind, call, ret, throw.
  destruct (world_chan_ready _ _) as [[|] w1]; cbn; [done|].
  destruct (world_getNodesFromCursor _ _ _ _) as [[e|nodes] w2]; cbn; [done|].
  destruct (decide (length nodes = 0)) as [|Hlen]; [done|].
  destruct (decide (length _ ≠ 0)).
  { cbn. by destruct (world_pipeline_Exec _ _) as [[e3|vals] w3]. }
  destruct (last_index_in_range nodes Hlen) as [lastNode ->].
  destruct (decide _); [|done].
  cbn. by destruct (world_cache_Get _ _) as [[e3|detail] w3].
Qed.

Lemma cursorRound_no_panic key opts startCursor start u s msg :
  fst (cursorRound key opts startCursor start u s) ≠ Panic msg.
Proof.
  unfold cursorRound, getNodesFromCursor, getEventsWithCursorNodes, time_Now_Unix,
    time_Sleep, call_checked, bind, call, ret, throw.
  destruct (world_getNodesFromCursor _ _ _ _) as [[e|nodes] w1]; cbn; [done|].
  destruct (decide (length nodes = 0)) as [|Hlen].
  { cbn. destruct (world_Now_Unix _) as [now w2]. cbn.
    destruct (_ >? _)%Z; [done|]. cbn. by destruct (world_Sleep _ _). }
  destruct (decide (length _ ≠ 0)).
  { cbn. by destruct (world_pipeline_Exec _ _) as [[e3|vals] w3]. }
  cbn. destruct (world_Now_Unix _) as [now w2]. cbn.
  destruct (_ >? _)%Z.
  - by destruct (last_index_in_range nodes Hlen) as [lastNode ->].
  - cbn. by destruct (world_Sleep _ _).
Qed.

End NoPanic.

(** ** The scan and the requested fields *)

Section Fields.
Context {W : Type} `{Collaborators W}.
Implicit Types (s : St W) (key : Key.t) (opts : WatchEventOptions.t).

(** A round that goes on to the next window has not looked at
    [opts.Fields]. *)
Lemma scanRound_continue_fields key opts fields timeout c s c' s' :
  scanRound key opts timeout c s = (Ok (inl c'), s') →
  scanRound key (withFields opts fields) timeout c s = (Ok (inl c'), s').
Proof.
  unfold scanRound, select_ready, getNodesFromCursor, getEventsWithCursorNodes,
    cache_Get, call_checked, bind, call, ret, throw.
  cbn [withFields WatchEventOptions.EventTypes WatchEventOptions.StartFrom
       WatchEventOptions.Resource WatchEventOptions.Fields].
  destruct (world_chan_ready _ _) as [[|] w1]; cbn; [done|].
  destruct (world_getNodesFromCursor _ _ _ _) as [[e|nodes] w2]; cbn; [done|].
  destruct (decide (length nodes = 0)); [done|].
  unfold matchedNodes.
  cbn [withFields WatchEventOptions.EventTypes WatchEventOptions.StartFrom].
  destruct (decide (length _ ≠ 0)); [|done].
  cbn. by destruct (world_pipeline_Exec _ _) as [[e3|vals] w3].
Qed.

Lemma rounds_fields n key opts fields timeout c s c' s' :
  rounds n (scanRound key opts timeout) c s = Some (c', s') →
  rounds n (scanRound key (withFields opts fields) timeout) c s = Some (c', s').
Proof.
  revert c s. induction n as [|n IH]; intros c s; simpl; [done|].
  destruct (scanRound key opts timeout c s) as [[[c1|r]|e|msg|] s1] eqn:E; try done.
  rewrite (scanRound_continue_fields _ _ fields _ _ _ _ _ E). apply IH.
Qed.

End Fields.

(** * The claims *)

Section StartFromClaims.
Context {W : Type} `{Collaborators W}.
Implicit Types (s : St W) (key : Key.t) (opts : WatchEventOptions.t)
               (nodes : list ChainNode.t).

(** The scan has gone through [n] windows without returning and stands
    before the next one. *)
Lemma scan_at_round n fuel key opts s h t w1 s1 timeout w2 c s' :
  world_getHeadTailNodeTargetNode key (world s) = (inr (h, t), w1) →
  emptyChainCheck key opts h t (mkSt w1 (calls s ++ [CallGetHeadTailNodeTargetNode]))
  = (Ok tt, s1) →
  (Sec (ChainNode.ClusterTime h) ≤ WatchEventOptions.StartFrom opts
   ≤ Sec (ChainNode.ClusterTime t))%Z →
  world_After (25 * time_Second) (world s1) = (timeout, w2) →
  rounds n (scanRound key opts timeout) (Key.HeadKey key)
         (mkSt w2 (calls s1 ++ [CallAfter (25 * time_Second)])) = Some (c, s') →
  watchWithStartFrom (n + fuel) key opts s
  = iter fuel (scanRound key opts timeout) c s'.
Proof.
  intros Hht Hchk Hrange Hafter Hrounds.
  rewrite (watchWithStartFrom_scan _ _ _ _ _ _ _ _ _ _ Hht Hchk Hrange Hafter).
  by apply rounds_iter.
Qed.

Lemma filter_wanted opts nodes :
  filter (not_before (WatchEventOptions.StartFrom opts))
         (filter (type_passes (WatchEventOptions.EventTypes opts)) nodes)
  = filter (wanted opts) nodes.
Proof.
  rewrite list_filter_filter. apply list_filter_iff. unfold wanted. tauto.
Qed.


(** The round that ends the scan at the tail without a match. *)
Lemma scan_miss_at_tail n fuel key opts s h t w1 s1 timeout w2
    c s' w3 nodes w4 lastNode detail w5 :
  world_getHeadTailNodeTargetNode key (world s) = (inr (h, t), w1) →
  emptyChainCheck key opts h t (mkSt w1 (calls s ++ [CallGetHeadTailNodeTargetNode]))
  = (Ok tt, s1) →
  (Sec (ChainNode.ClusterTime h) ≤ WatchEventOptions.StartFrom opts
   ≤ Sec (ChainNode.ClusterTime t))%Z →
  world_After (25 * time_Second) (world s1) = (timeout, w2) →
  rounds n (scanRound key opts timeout) (Key.HeadKey key)
         (mkSt w2 (calls s1 ++ [CallAfter (25 * time_Second)])) = Some (c, s') →
  world_chan_ready timeout (world s') = (false, w3) →
  world_getNodesFromCursor eventStep c key w3 = (inr nodes, w4) →
  filter (wanted opts) nodes = [] →
  last nodes = Some lastNode →
  ChainNode.NextCursor lastNode = Key.TailKey key →
  world_cache_Get (Key.DetailKey key (ChainNode.Cursor lastNode)) w4 = (inr detail, w5) →
  watchWithStartFrom (n + S fuel) key opts s
  = (Ok [WatchEventResp.mk (ChainNode.Cursor lastNode)
                           (WatchEventOptions.Resource opts) (Some detail)],
     mkSt w5 (calls s' ++ [CallSelectTimeout;
                           CallGetNodesFromCursor eventStep c;
                           CallCacheGet (Key.DetailKey key (ChainNode.Cursor lastNode))])).
Proof.
  intros Hht Hchk Hrange Hafter Hrounds Hsel Hget Hnone Hlast Htail Hdet.
  rewrite (scan_at_round n (S fuel) _ _ _ _ _ _ _ _ _ c s' Hht Hchk Hrange Hafter Hrounds).
  apply iter_return.
  rewrite (scanRound_window _ _ _ _ _ _ _ _ Hsel Hget). rewrite filter_wanted, Hnone, Hlast.
  destruct nodes as [|n0 nodes']; [done|].
  rewrite decide_True by done.
  set (s2 := mkSt w4 _).
  assert (Hdet' : world_cache_Get (Key.DetailKey key (ChainNode.Cursor lastNode)) (world s2)
                  = (inr detail, w5)) by done.
  unfold cache_Get. rewrite (bind_ok _ _ _ _ _ (call_checked_ok _ _ _ _ _ Hdet')).
  unfold ret, s2. cbn [calls]. by rewrite <- app_assoc.
Qed.

(** C4. StartFrom mode: when the scan comes to a window in which no node
    both passes the event-type filter and is not before StartFrom, and
    the last node of the window points to the tail key, the answer is
    the single response with that node's cursor and that node's detail,
    read by one single [Get] on the cache (no pipeline). *)
Theorem C4_startFrom_miss_at_tail n fuel key opts s h t w1 s1 timeout w2
    c s' w3 nodes w4 lastNode detail w5 :
  world_getHeadTailNodeTargetNode key (world s) = (inr (h, t), w1) →
  emptyChainCheck key opts h t (mkSt w1 (calls s ++ [CallGetHeadTailNodeTargetNode]))
  = (Ok tt, s1) →
  (Sec (ChainNode.ClusterTime h) ≤ WatchEventOptions.StartFrom opts
   ≤ Sec (ChainNode.ClusterTime t))%Z →
  world_After (25 * time_Second) (world s1) = (timeout, w2) →
  rounds n (scanRound key opts timeout) (Key.HeadKey key)
         (mkSt w2 (calls s1 ++ [CallAfter (25 * time_Second)])) = Some (c, s') →
  world_chan_ready timeout (world s') = (false, w3) →
  world_getNodesFromCursor eventStep c key w3 = (inr nodes, w4) →
  filter (wanted opts) nodes = [] →
  last nodes = Some lastNode →
  ChainNode.NextCursor lastNode = Key.TailKey key →
  world_cache_Get (Key.DetailKey key (ChainNode.Cursor lastNode)) w4 = (inr detail, w5) →
  watchWithStartFrom (n + S fuel) key opts s
  = (Ok [WatchEventResp.mk (ChainNode.Cursor lastNode)
                           (WatchEventOptions.Resource opts) (Some detail)],
     mkSt w5 (calls s' ++ [CallSelectTimeout;
                           CallGetNodesFromCursor eventStep c;
                           CallCacheGet (Key.DetailKey key (ChainNode.Cursor lastNode))])).
Proof.
  apply scan_miss_at_tail.
Qed.

(** Every [error] a strategy returns leaves the handler as the same
    HTTP-200 error body. *)
Lemma respond_error {A} (wrap : A → HttpResponse) (r : Outcome A * St W) e s' :
  r = (Err e, s') →
  respond wrap r = (Ok (WriteError 200 (mkRespError CCErrCommHTTPInputInvalid)), s').
Proof. by intros ->. Qed.

(** C7. When the timer of the StartFrom scan has fired at the top of a
    round, watchWithStartFrom returns an error, not a miss response, and
    the handler writes it as an error body with HTTP status 200; it is
    the body every error of the strategy gets, a failed cache read
    included. *)
Theorem C7_startFrom_scan_budget n fuel resource decoded key s h t w1 s1
    timeout w2 c s' w3 :
  let opts := withResource decoded resource in
  Validate opts = None →
  GetResourceKeyWithCursorType resource = inr key →
  WatchEventOptions.Cursor decoded = "" →
  WatchEventOptions.StartFrom decoded ≠ 0%Z →
  world_getHeadTailNodeTargetNode key (world s) = (inr (h, t), w1) →
  emptyChainCheck key opts h t (mkSt w1 (calls s ++ [CallGetHeadTailNodeTargetNode]))
  = (Ok tt, s1) →
  (Sec (ChainNode.ClusterTime h) ≤ WatchEventOptions.StartFrom opts
   ≤ Sec (ChainNode.ClusterTime t))%Z →
  world_After (25 * time_Second) (world s1) = (timeout, w2) →
  rounds n (scanRound key opts timeout) (Key.HeadKey key)
         (mkSt w2 (calls s1 ++ [CallAfter (25 * time_Second)])) = Some (c, s') →
  world_chan_ready timeout (world s') = (true, w3) →
  let send := mkSt w3 (calls s' ++ [CallSelectTimeout]) in
  watchWithStartFrom (n + S fuel) key opts s
  = (Err "scan the event cost too long time", send)
  ∧ WatchEvent (n + S fuel) resource (inr decoded) s
    = (Ok (WriteError 200 (mkRespError CCErrCommHTTPInputInvalid)), send)
  ∧ (∀ fuel' s0 e s0',
       watchWithStartFrom fuel' key opts s0 = (Err e, s0') →
       WatchEvent fuel' resource (inr decoded) s0
       = (Ok (WriteError 200 (mkRespError CCErrCommHTTPInputInvalid)), s0')).
Proof.
  intros opts Hval Hkey Hcur Hsf Hht Hchk Hrange Hafter Hrounds Hsel send.
  assert (Hdispatch : ∀ fuel' s0,
            WatchEvent fuel' resource (inr decoded) s0
            = respond WriteEntity (watchWithStartFrom fuel' key opts s0)).
  { intros fuel' s0. rewrite (WatchEvent_dispatch _ _ _ _ _ Hval Hkey), Hcur.
    rewrite decide_False by (intros Hne; by apply Hne).
    by rewrite decide_True by done. }
  assert (Hrun : watchWithStartFrom (n + S fuel) key opts s
                 = (Err "scan the event cost too long time", send)).
  { rewrite (scan_at_round n (S fuel) _ _ _ _ _ _ _ _ _ c s' Hht Hchk Hrange Hafter Hrounds).
    apply iter_error. by apply scanRound_timeout. }
  split; [done|]. split.
  - rewrite Hdispatch. by apply respond_error with (e := "scan the event cost too long time").
  - intros fuel' s0 e s0' Herr. rewrite Hdispatch. by apply respond_error with (e := e).
Qed.

(** C10. The miss-at-tail answer of the StartFrom scan carries the cached
    detail as it was read: [opts.Fields] and the projection do not enter
    it.  The other answers with a detail, the pipelined hits and from-now,
    carry the projection of what was read. *)
Theorem C10_tail_detail_not_projected n fuel key opts s h t w1 s1 timeout w2
    c s' w3 nodes w4 lastNode detail w5 :
  world_getHeadTailNodeTargetNode key (world s) = (inr (h, t), w1) →
  emptyChainCheck key opts h t (mkSt w1 (calls s ++ [CallGetHeadTailNodeTargetNode]))
  = (Ok tt, s1) →
  (Sec (ChainNode.ClusterTime h) ≤ WatchEventOptions.StartFrom opts
   ≤ Sec (ChainNode.ClusterTime t))%Z →
  world_After (25 * time_Second) (world s1) = (timeout, w2) →
  rounds n (scanRound key opts timeout) (Key.HeadKey key)
         (mkSt w2 (calls s1 ++ [CallAfter (25 * time_Second)])) = Some (c, s') →
  world_chan_ready timeout (world s') = (false, w3) →
  world_getNodesFromCursor eventStep c key w3 = (inr nodes, w4) →
  filter (wanted opts) nodes = [] →
  last nodes = Some lastNode →
  ChainNode.NextCursor lastNode = Key.TailKey key →
  world_cache_Get (Key.DetailKey key (ChainNode.Cursor lastNode)) w4 = (inr detail, w5) →
  WatchEventResp.Detail
    <$> match fst (watchWithStartFrom (n + S fuel) key opts s) with
        | Ok events => events
        | _ => []
        end
  = [Some detail]
  ∧ (∀ fields,
       fst (watchWithStartFrom (n + S fuel) key (withFields opts fields) s)
       = fst (watchWithStartFrom (n + S fuel) key opts s))
  ∧ (∀ hitNodes s0 vals w0,
       world_pipeline_Exec (detailKeys key hitNodes) (world s0) = (inr vals, w0) →
       ∃ events,
         fst (getEventsWithCursorNodes opts hitNodes key s0) = Ok events
         ∧ WatchEventResp.Detail <$> events
           = imap (λ idx _, Some (CutJsonDataWithFields (nth idx vals "")
                                    (WatchEventOptions.Fields opts))) hitNodes)
  ∧ (∀ s0 node latest w0,
       world_getLatestEventDetail key (world s0) = (inr (node, latest), w0) →
       type_passes (WatchEventOptions.EventTypes opts) node →
       ∃ event,
         fst (watchFromNow key opts s0) = Ok event
         ∧ WatchEventResp.Detail event
           = Some (CutJsonDataWithFields latest (WatchEventOptions.Fields opts))).
Proof.
  intros Hht Hchk Hrange Hafter Hrounds Hsel Hget Hnone Hlast Htail Hdet.
  split; [|split; [|split]].
  - by rewrite (scan_miss_at_tail n fuel key opts s h t w1 s1 timeout w2
               c s' w3 nodes w4 lastNode detail w5).
  - intros fields.
    rewrite (scan_miss_at_tail n fuel key opts s h t w1 s1 timeout w2
               c s' w3 nodes w4 lastNode detail w5) by done.
    rewrite (scan_miss_at_tail n fuel key (withFields opts fields) s h t w1 s1 timeout w2
               c s' w3 nodes w4 lastNode detail w5); try done.
    by apply rounds_fields.
  - intros hitNodes s0 vals w0 Hpipe.
    rewrite (getEventsWithCursorNodes_ok _ _ _ _ _ _ Hpipe). eexists; split; [done|].
    rewrite fmap_imap. done.
  - intros s0 node latest w0 Hlatest Hpass.
    rewrite (watchFromNow_ok _ _ _ _ _ _ Hlatest), decide_True by done.
    by eexists.
Qed.

(** C3 (amended). StartFrom mode on a chain flagged empty: an exact
    difference [now - StartFrom] that is negative or above the TTL fails
    with the out-of-range error; otherwise the too-old check and the
    too-new check are applied as on any chain, the scan runs only when
    StartFrom lies between the cluster times of the two targets, and a
    scan whose first window is empty returns the NoEventCursor miss. *)
Theorem C3_startFrom_empty_chain fuel key opts s h t w1 now w2 :
  world_getHeadTailNodeTargetNode key (world s) = (inr (h, t), w1) →
  ChainNode.NextCursor h = Key.TailKey key
  ∨ ChainNode.NextCursor t = Key.HeadKey key →
  world_Now_Unix w1 = (now, w2) →
  is_int64 now → (0 ≤ now)%Z →
  is_int64 (WatchEventOptions.StartFrom opts) →
  is_int64 (Key.TTLSeconds key) →
  let diff := (now - WatchEventOptions.StartFrom opts)%Z in
  let s2 := mkSt w2 (calls s ++ [CallGetHeadTailNodeTargetNode; CallNowUnix]) in
  ((diff < 0 ∨ diff > Key.TTLSeconds key)%Z →
   watchWithStartFrom fuel key opts s
   = (Err "bk_start_from value is out of range", s2))
  ∧ ((0 ≤ diff ≤ Key.TTLSeconds key)%Z →
     watchWithStartFrom fuel key opts s
     = if (Sec (ChainNode.ClusterTime h) >? WatchEventOptions.StartFrom opts)%Z then
         (Err "bk_start_from value is too small", s2)
       else if (Sec (ChainNode.ClusterTime t) <? WatchEventOptions.StartFrom opts)%Z then
         (latestEvent <- watchFromNow key opts ;; ret [latestEvent]) s2
       else
         (timeout <- time_After (25 * time_Second) ;;
          iter fuel (scanRound key opts timeout) (Key.HeadKey key)) s2)
  ∧ (∀ timeout w3 w4 w5,
       (0 ≤ diff ≤ Key.TTLSeconds key)%Z →
       (Sec (ChainNode.ClusterTime h) ≤ WatchEventOptions.StartFrom opts
        ≤ Sec (ChainNode.ClusterTime t))%Z →
       world_After (25 * time_Second) w2 = (timeout, w3) →
       world_chan_ready timeout w3 = (false, w4) →
       world_getNodesFromCursor eventStep (Key.HeadKey key) key w4 = (inr [], w5) →
       watchWithStartFrom (S fuel) key opts s
       = (Ok [missResp opts],
          mkSt w5 (calls s ++ [CallGetHeadTailNodeTargetNode; CallNowUnix;
                               CallAfter (25 * time_Second); CallSelectTimeout;
                               CallGetNodesFromCursor eventStep (Key.HeadKey key)]))).
Proof.
  intros Hht Hflag Hnow Hi64 H0 Hsf Httl diff s2.
  pose proof (emptyChainCheck_flagged key opts h t
                (mkSt w1 (calls s ++ [CallGetHeadTailNodeTargetNode])) now w2 Hflag Hnow)
    as Hchk.
  cbn [calls] in Hchk. rewrite <- app_assoc in Hchk. cbn [app] in Hchk. fold s2 in Hchk.
  pose proof (out_of_range_test now (WatchEventOptions.StartFrom opts)
                (Key.TTLSeconds key) Hi64 Hsf Httl H0) as Htest.
  fold diff in Htest.
  assert (Hin : (0 ≤ diff ≤ Key.TTLSeconds key)%Z →
                emptyChainCheck key opts h t
                  (mkSt w1 (calls s ++ [CallGetHeadTailNodeTargetNode])) = (Ok tt, s2)).
  { intros Hd. rewrite Hchk. pose proof (proj1 Htest) as Hout.
    destruct (_ || _); [|done]. specialize (Hout eq_refl). lia. }
  split; [|split].
  - intros Hout. apply Htest in Hout. rewrite Hout in Hchk.
    by apply (watchWithStartFrom_check_fails _ _ _ _ _ _ _ _ _ Hht Hchk).
  - intros Hd. by apply (watchWithStartFrom_after_check _ _ _ _ _ _ _ _ Hht (Hin Hd)).
  - intros timeout w3 w4 w5 Hd Hrange Hafter Hsel Hget.
    rewrite (watchWithStartFrom_scan _ _ _ _ _ _ _ _ _ _ Hht (Hin Hd) Hrange Hafter).
    apply iter_return.
    set (s3 := mkSt w3 _).
    assert (Hsel' : world_chan_ready timeout (world s3) = (false, w4)) by done.
    rewrite (scanRound_window _ _ _ _ _ _ _ _ Hsel' Hget).
    unfold s3, s2. cbn [calls]. by rewrite <- !app_assoc.
Qed.

(** C5 (amended). StartFrom mode on a non-empty chain, once the too-old
    check has let the request through (the head target is not newer than
    StartFrom): when the tail target is older than StartFrom, the answer
    is the one-element list holding the response of watchFromNow (the
    latest event, or the NoEventCursor miss when its type is not asked
    for), and the only calls made are the read of the two targets and the
    read of the latest event: no window of the chain is fetched. *)
Theorem C5_startFrom_ahead_of_tail fuel key opts s h t w1 node detail w2 :
  world_getHeadTailNodeTargetNode key (world s) = (inr (h, t), w1) →
  ChainNode.NextCursor h ≠ Key.TailKey key →
  ChainNode.NextCursor t ≠ Key.HeadKey key →
  (Sec (ChainNode.ClusterTime h) ≤ WatchEventOptions.StartFrom opts)%Z →
  (Sec (ChainNode.ClusterTime t) < WatchEventOptions.StartFrom opts)%Z →
  world_getLatestEventDetail key w1 = (inr (node, detail), w2) →
  let s1 := mkSt w1 (calls s ++ [CallGetHeadTailNodeTargetNode]) in
  let s2 := mkSt w2 (calls s ++ [CallGetHeadTailNodeTargetNode;
                                 CallGetLatestEventDetail]) in
  let latestEvent :=
    if decide (WatchEventOptions.EventTypes opts ≠ []
               ∧ ChainNode.EventType node ∉ WatchEventOptions.EventTypes opts)
    then WatchEventResp.mk NoEventCursor (WatchEventOptions.Resource opts) None
    else hitResp opts node detail in
  watchFromNow key opts s1 = (Ok latestEvent, s2)
  ∧ watchWithStartFrom fuel key opts s = (Ok [latestEvent], s2)
  ∧ Forall (λ c, is_scan_call c = false) (drop (length (calls s)) (calls s2)).
Proof.
  intros Hht Hh Ht Hold Hnew Hlatest s1 s2 latestEvent.
  assert (Hnow : watchFromNow key opts s1 = (Ok latestEvent, s2)).
  { rewrite (watchFromNow_ok key opts s1 node detail w2 Hlatest).
    unfold s1, s2. cbn [calls]. rewrite <- app_assoc. cbn [app].
    f_equal. f_equal. unfold latestEvent, type_passes, missResp.
    destruct (decide (_ ∨ _)) as [Hp|Hp]; destruct (decide (_ ∧ _)) as [Hq|Hq];
      try done.
    - destruct Hq as [? ?], Hp as [?|?]; done.
    - exfalso. apply Hq. split; intros ?; apply Hp; [by left|by right]. }
  split; [done|]. split.
  - pose proof (emptyChainCheck_nonempty key opts h t s1 Hh Ht) as Hchk.
    rewrite (watchWithStartFrom_after_check _ _ _ _ _ _ _ _ Hht Hchk).
    destruct (Z.gtb_spec (Sec (ChainNode.ClusterTime h)) (WatchEventOptions.StartFrom opts)); [lia|].
    destruct (Z.ltb_spec (Sec (ChainNode.ClusterTime t)) (WatchEventOptions.StartFrom opts)); [|lia].
    by rewrite (bind_ok _ _ _ _ _ Hnow).
  - unfold s2. cbn [calls]. rewrite drop_app_length. by repeat constructor.
Qed.

(** C6 (amended). StartFrom mode, once the empty-chain check has let the
    request through: a head target strictly newer than StartFrom fails
    with the too-small error, and a StartFrom equal to (or after) the
    head target's cluster time passes this check and goes on to the
    too-new check and the scan. *)
Theorem C6_startFrom_too_small fuel key opts s h t w1 s1 :
  world_getHeadTailNodeTargetNode key (world s) = (inr (h, t), w1) →
  emptyChainCheck key opts h t (mkSt w1 (calls s ++ [CallGetHeadTailNodeTargetNode]))
  = (Ok tt, s1) →
  ((Sec (ChainNode.ClusterTime h) > WatchEventOptions.StartFrom opts)%Z →
   watchWithStartFrom fuel key opts s = (Err "bk_start_from value is too small", s1))
  ∧ ((Sec (ChainNode.ClusterTime h) ≤ WatchEventOptions.StartFrom opts)%Z →
     watchWithStartFrom fuel key opts s
     = if (Sec (ChainNode.ClusterTime t) <? WatchEventOptions.StartFrom opts)%Z then
         (latestEvent <- watchFromNow key opts ;; ret [latestEvent]) s1
       else
         (timeout <- time_After (25 * time_Second) ;;
          iter fuel (scanRound key opts timeout) (Key.HeadKey key)) s1).
Proof.
  intros Hht Hchk.
  rewrite (watchWithStartFrom_after_check _ _ _ _ _ _ _ _ Hht Hchk).
  split; intros Hcmp.
  - by rewrite (proj2 (Z.gtb_gt _ _)) by lia.
  - destruct (Z.gtb_spec (Sec (ChainNode.ClusterTime h)) (WatchEventOptions.StartFrom opts)); [lia|done].
Qed.

End StartFromClaims.

Section CursorClaims.
Context {W : Type} `{Collaborators W}.
Implicit Types (s : St W) (key : Key.t) (opts : WatchEventOptions.t)
               (nodes : list ChainNode.t).

(** C2. Cursor mode, at a round where the clock read after the window
    shows more than 25 seconds since the loop started: an empty window
    is answered by the single miss response with NoEventCursor and no
    detail; a window with nodes of which none passes the event-type
    filter is answered by the single response with the cursor of the
    window's last node and no detail.  Both are ordinary results, not
    errors. *)
Theorem C2_cursor_deadline n fuel key opts s start w1 s' nodes w2 now w3 :
  let startCursor :=
    if decide (WatchEventOptions.Cursor opts = NoEventCursor)
    then Key.HeadKey key else WatchEventOptions.Cursor opts in
  world_Now_Unix (world s) = (start, w1) →
  rounds n (cursorRound key opts startCursor start) tt
         (mkSt w1 (calls s ++ [CallNowUnix])) = Some (tt, s') →
  world_getNodesFromCursor eventStep startCursor key (world s') = (inr nodes, w2) →
  world_Now_Unix w2 = (now, w3) →
  (0 ≤ start)%Z → is_int64 now →
  (now - start > 25)%Z →
  let send := mkSt w3 (calls s' ++ [CallGetNodesFromCursor eventStep startCursor;
                                    CallNowUnix]) in
  (nodes = [] →
   watchWithCursor (n + S fuel) key opts s
   = (Ok [WatchEventResp.mk NoEventCursor (WatchEventOptions.Resource opts) None], send))
  ∧ (∀ lastNode,
       last nodes = Some lastNode →
       filter (type_passes (WatchEventOptions.EventTypes opts)) nodes = [] →
       watchWithCursor (n + S fuel) key opts s
       = (Ok [WatchEventResp.mk (ChainNode.Cursor lastNode)
                                (WatchEventOptions.Resource opts) None], send)).
Proof.
  intros startCursor Hstart Hrounds Hget Hnow H0 Hi64 Hlate send.
  assert (Hloop : watchWithCursor (n + S fuel) key opts s
                  = iter (S fuel) (cursorRound key opts startCursor start) tt s').
  { rewrite (watchWithCursor_loop _ _ _ _ _ _ Hstart). by apply rounds_iter. }
  assert (Hcmp : (sub64 now start >? timeoutWatchLoopSeconds)%Z = true).
  { rewrite sub64_exact by (done || lia). unfold timeoutWatchLoopSeconds.
    apply Z.gtb_gt. lia. }
  split.
  - intros ->. rewrite Hloop. apply iter_return.
    rewrite (cursorRound_nohit _ _ _ _ _ _ _ _ _ Hget eq_refl Hnow).
    by rewrite Hcmp.
  - intros lastNode Hlast Hnone. rewrite Hloop. apply iter_return.
    rewrite (cursorRound_nohit _ _ _ _ _ _ _ _ _ Hget Hnone Hnow).
    by rewrite Hcmp, Hlast.
Qed.

(** C9. From-now mode gives one response: the NoEventCursor miss without
    detail when the requested type set is not empty and does not hold
    the latest node's type, and otherwise the latest node's cursor with
    its detail projected to [opts.Fields]; the handler sends it as a
    one-element list. *)
Theorem C9_from_now fuel resource decoded key s node detail w1 :
  let opts := withResource decoded resource in
  Validate opts = None →
  GetResourceKeyWithCursorType resource = inr key →
  WatchEventOptions.Cursor decoded = "" →
  WatchEventOptions.StartFrom decoded = 0%Z →
  world_getLatestEventDetail key (world s) = (inr (node, detail), w1) →
  let resp :=
    if decide (WatchEventOptions.EventTypes opts ≠ []
               ∧ ChainNode.EventType node ∉ WatchEventOptions.EventTypes opts)
    then WatchEventResp.mk NoEventCursor resource None
    else WatchEventResp.mk (ChainNode.Cursor node) resource
           (Some (CutJsonDataWithFields detail (WatchEventOptions.Fields opts))) in
  let send := mkSt w1 (calls s ++ [CallGetLatestEventDetail]) in
  watchFromNow key opts s = (Ok resp, send)
  ∧ WatchEvent fuel resource (inr decoded) s = (Ok (WriteEntity [resp]), send).
Proof.
  intros opts Hval Hkey Hcur Hsf Hlatest resp send.
  assert (Hnow : watchFromNow key opts s = (Ok resp, send)).
  { rewrite (watchFromNow_ok key opts s node detail w1 Hlatest).
    f_equal. f_equal. unfold resp, type_passes, missResp, hitResp.
    destruct (decide (_ ∨ _)) as [Hp|Hp]; destruct (decide (_ ∧ _)) as [Hq|Hq];
      try done.
    - destruct Hq as [? ?], Hp as [?|?]; done.
    - exfalso. apply Hq. split; intros ?; apply Hp; [by left|by right]. }
  split; [done|].
  rewrite (WatchEvent_dispatch _ _ _ _ _ Hval Hkey), Hcur, Hsf.
  rewrite decide_False by (intros Hne; by apply Hne).
  rewrite decide_False by (intros Hne; by apply Hne).
  fold opts. by rewrite Hnow.
Qed.

End CursorClaims.

(** ** Requests that ask for no type and for every known type *)

Section AllTypes.
Context {W : Type} `{Collaborators W}.
Context (known : list EventType) (Inv : W → Prop) `{!KnownTypes known Inv}.
Implicit Types (s : St W) (key : Key.t) (opts : WatchEventOptions.t).

Lemma preserves_ret {A} (a : A) : preserves Inv (ret a).
Proof. by intros s. Qed.

Lemma preserves_throw {A} e : preserves Inv (throw (A := A) e).
Proof. by intros s. Qed.

Lemma preserves_panic {A} msg : preserves Inv (panic (A := A) msg).
Proof. by intros s. Qed.

Lemma preserves_bind {A B} (m : M W A) (k : A → M W B) :
  preserves Inv m → (∀ a, preserves Inv (k a)) → preserves Inv (bind m k).
Proof.
  intros Hm Hk s Hs. unfold bind. specialize (Hm s Hs).
  destruct (m s) as [[a|e|msg|] s1]; try done. by apply Hk.
Qed.

Lemma preserves_call {A} c (op : W → A * W) :
  (∀ w, Inv w → Inv (snd (op w))) → preserves Inv (call c op).
Proof.
  intros Hop s Hs. unfold call. specialize (Hop (world s) Hs).
  by destruct (op (world s)).
Qed.

Lemma preserves_call_checked {A} c (op : W → (error + A) * W) :
  (∀ w, Inv w → Inv (snd (op w))) → preserves Inv (call_checked c op).
Proof.
  intros Hop. apply preserves_bind; [by apply preserves_call|].
  intros [e|a]; [apply preserves_throw|apply preserves_ret].
Qed.

Lemma preserves_iter {I R} fuel (body : I → M W (I + R)) i :
  (∀ i, preserves Inv (body i)) → preserves Inv (iter fuel body i).
Proof.
  intros Hbody. revert i. induction fuel as [|fuel IH]; intros i s Hs; [done|].
  simpl. specialize (Hbody i s Hs).
  destruct (body i s) as [[[j|r]|e|msg|] s1]; try done. by apply IH.
Qed.

Ltac preserve :=
  repeat first
    [ apply preserves_ret | apply preserves_throw | apply preserves_panic
    | apply preserves_call_checked | apply preserves_call
    | apply inv_Now_Unix | apply inv_After | apply inv_chan_ready
    | apply inv_Sleep | apply inv_getNodesFromCursor
    | apply inv_getHeadTailNodeTargetNode | apply inv_getLatestEventDetail
    | apply inv_cache_Get | apply inv_pipeline_Exec
    | apply preserves_bind; [|intros ?]
    | match goal with
      | |- preserves Inv (if ?b then _ else _) => destruct b
      | |- preserves Inv (match ?x with _ => _ end) => destruct x
      end ].

Lemma preserves_getEventsWithCursorNodes opts hitNodes key :
  preserves Inv (getEventsWithCursorNodes opts hitNodes key).
Proof. unfold getEventsWithCursorNodes. preserve. Qed.

Lemma preserves_watchFromNow key opts : preserves Inv (watchFromNow key opts).
Proof. unfold watchFromNow, getLatestEventDetail. preserve. Qed.

Lemma preserves_emptyChainCheck key opts h t :
  preserves Inv (emptyChainCheck key opts h t).
Proof. unfold emptyChainCheck, time_Now_Unix. preserve. Qed.

Lemma preserves_scanRound key opts timeout c :
  preserves Inv (scanRound key opts timeout c).
Proof.
  unfold scanRound, select_ready, getNodesFromCursor, cache_Get.
  preserve; apply preserves_getEventsWithCursorNodes.
Qed.

Lemma preserves_cursorRound key opts startCursor start u :
  preserves Inv (cursorRound key opts startCursor start u).
Proof.
  unfold cursorRound, getNodesFromCursor, time_Now_Unix, time_Sleep.
  preserve; apply preserves_getEventsWithCursorNodes.
Qed.

Lemma agree_refl {A} (m : M W A) : agree Inv m m.
Proof. by intros s. Qed.

Lemma agree_bind {A B} (m : M W A) (k1 k2 : A → M W B) :
  preserves Inv m → (∀ a, agree Inv (k1 a) (k2 a)) → agree Inv (bind m k1) (bind m k2).
Proof.
  intros Hm Hk s Hs. unfold bind. specialize (Hm s Hs).
  destruct (m s) as [[a|e|msg|] s1]; try done. by apply Hk.
Qed.

Lemma agree_iter {I R} fuel (body1 body2 : I → M W (I + R)) i :
  (∀ i, preserves Inv (body1 i)) → (∀ i, agree Inv (body1 i) (body2 i)) →
  agree Inv (iter fuel body1 i) (iter fuel body2 i).
Proof.
  intros Hpres Hagree. revert i. induction fuel as [|fuel IH]; intros i s Hs; [done|].
  simpl. rewrite <- (Hagree i s Hs). specialize (Hpres i s Hs).
  destruct (body1 i s) as [[[j|r]|e|msg|] s1]; try done. by apply IH.
Qed.

(** A window read in a world of [Inv] is filtered alike. *)
Lemma agree_window {A} step c key (k1 k2 : list ChainNode.t → M W A) :
  (∀ nodes, (∀ node, node ∈ nodes → ChainNode.EventType node ∈ known) →
            agree Inv (k1 nodes) (k2 nodes)) →
  agree Inv (bind (getNodesFromCursor step c key) k1)
        (bind (getNodesFromCursor step c key) k2).
Proof.
  intros Hk s Hs. unfold bind, getNodesFromCursor, call_checked, bind, call.
  destruct (world_getNodesFromCursor step c key (world s)) as [[e|nodes] w'] eqn:E;
    [done|].
  cbn. apply Hk.
  - by apply (known_window step c key (world s) nodes w').
  - cbn. pose proof (inv_getNodesFromCursor step c key (world s) Hs) as Hi.
    by rewrite E in Hi.
Qed.

Lemma agree_watchFromNow key opts :
  agree Inv (watchFromNow key (withEventTypes opts []))
        (watchFromNow key (withEventTypes opts known)).
Proof.
  intros s Hs. unfold watchFromNow, bind, getLatestEventDetail, call_checked, bind, call.
  destruct (world_getLatestEventDetail key (world s)) as [[e|[node detail]] w'] eqn:E;
    [done|].
  cbn. rewrite (getHitNodeWithEventType_all [node] known); [done|].
  intros node' Hin. apply list_elem_of_singleton in Hin as ->.
  by apply (known_latest key (world s) node detail w').
Qed.

Lemma agree_scanRound key opts timeout c :
  agree Inv (scanRound key (withEventTypes opts []) timeout c)
        (scanRound key (withEventTypes opts known) timeout c).
Proof.
  unfold scanRound. apply agree_bind; [unfold select_ready; preserve|].
  intros [|]; [apply agree_refl|].
  apply agree_window. intros nodes Hknown.
  cbn [withEventTypes WatchEventOptions.EventTypes].
  rewrite (getHitNodeWithEventType_all nodes known Hknown).
  rewrite getHitNodeWithEventType_nil. apply agree_refl.
Qed.

Lemma agree_cursorRound key opts startCursor start u :
  agree Inv (cursorRound key (withEventTypes opts []) startCursor start u)
        (cursorRound key (withEventTypes opts known) startCursor start u).
Proof.
  unfold cursorRound. apply agree_window. intros nodes Hknown.
  cbn [withEventTypes WatchEventOptions.EventTypes].
  rewrite (getHitNodeWithEventType_all nodes known Hknown).
  rewrite getHitNodeWithEventType_nil. apply agree_refl.
Qed.

Lemma agree_watchWithCursor fuel key opts :
  agree Inv (watchWithCursor fuel key (withEventTypes opts []))
        (watchWithCursor fuel key (withEventTypes opts known)).
Proof.
  unfold watchWithCursor. cbn [withEventTypes WatchEventOptions.Cursor].
  apply agree_bind; [unfold time_Now_Unix; preserve|].
  intros start. apply agree_iter.
  - intros u. apply preserves_cursorRound.
  - intros u. apply agree_cursorRound.
Qed.

Lemma agree_watchWithStartFrom fuel key opts :
  agree Inv (watchWithStartFrom fuel key (withEventTypes opts []))
        (watchWithStartFrom fuel key (withEventTypes opts known)).
Proof.
  unfold watchWithStartFrom.
  apply agree_bind; [unfold getHeadTailNodeTargetNode; preserve|].
  intros [h t].
  apply agree_bind; [apply preserves_emptyChainCheck|].
  intros _. cbn [withEventTypes WatchEventOptions.StartFrom].
  destruct (_ >? _)%Z; [apply agree_refl|].
  destruct (_ <? _)%Z.
  - intros s Hs. unfold bind.
    by rewrite (agree_watchFromNow key opts s Hs).
  - apply agree_bind; [unfold time_After; preserve|].
    intros timeout. apply agree_iter.
    + intros c. apply preserves_scanRound.
    + intros c. apply agree_scanRound.
Qed.

(** The whole request. *)
Lemma agree_WatchEvent fuel resource decoded :
  Validate (withResource (withEventTypes decoded []) resource)
  = Validate (withResource (withEventTypes decoded known) resource) →
  agree Inv (WatchEvent fuel resource (inr (withEventTypes decoded [])))
        (WatchEvent fuel resource (inr (withEventTypes decoded known))).
Proof.
  intros Hval s Hs. unfold WatchEvent. rewrite Hval.
  destruct (Validate (withResource (withEventTypes decoded known) resource)) as [e|];
    [reflexivity|].
  change (withResource (withEventTypes decoded []) resource)
    with (withEventTypes (withResource decoded resource) []).
  change (withResource (withEventTypes decoded known) resource)
    with (withEventTypes (withResource decoded resource) known).
  set (o := withResource decoded resource).
  cbn [withEventTypes WatchEventOptions.Resource WatchEventOptions.Cursor
       WatchEventOptions.StartFrom].
  destruct (GetResourceKeyWithCursorType _) as [e|key]; [reflexivity|].
  destruct (decide (String.length _ ≠ 0)).
  { unfold bind, try. by rewrite (agree_watchWithCursor fuel key o s Hs). }
  destruct (decide (_ ≠ 0%Z)).
  { unfold bind, try. by rewrite (agree_watchWithStartFrom fuel key o s Hs). }
  unfold bind, try. by rewrite (agree_watchFromNow key o s Hs).
Qed.

End AllTypes.

(** C8. The event-type filter returns its input when no type is asked
    for, and otherwise exactly the nodes whose type is asked for, in the
    order of the input.  So on nodes whose types are all known, asking for
    no type and asking for every known type select the same nodes, and in
    a world that only holds events of known types the two requests get
    the same answer from the handler. *)
Theorem C8_event_type_filter {W : Type} `{Collaborators W}
    (known : list EventType) (Inv : W → Prop)
    (nodes : list ChainNode.t) (typs : list EventType)
    (fuel : nat) (resource : string) (decoded : WatchEventOptions.t) (s : St W) :
  KnownTypes known Inv →
  Inv (world s) →
  (∀ node, node ∈ nodes → ChainNode.EventType node ∈ known) →
  Validate (withResource (withEventTypes decoded []) resource)
  = Validate (withResource (withEventTypes decoded known) resource) →
  getHitNodeWithEventType nodes [] = nodes
  ∧ (typs ≠ [] →
     getHitNodeWithEventType nodes typs
     = filter (λ node, ChainNode.EventType node ∈ typs) nodes)
  ∧ getHitNodeWithEventType nodes [] = getHitNodeWithEventType nodes known
  ∧ WatchEvent fuel resource (inr (withEventTypes decoded [])) s
    = WatchEvent fuel resource (inr (withEventTypes decoded known)) s.
Proof.
  intros Hworld Hs Hknown Hval. split; [done|]. split; [|split].
  - apply getHitNodeWithEventType_filter.
  - by rewrite (getHitNodeWithEventType_all nodes known Hknown).
  - by apply (agree_WatchEvent known Inv).
Qed.

(** * The claims on the in-memory world *)

(** The in-memory world never changes its chain. *)
Lemma nodes_after_elem cursor (l rest : list ChainNode.t) node :
  Sim.nodes_after cursor l = Some rest → node ∈ rest → node ∈ l.
Proof.
  revert rest. induction l as [|n l IH]; intros rest; simpl; [done|].
  destruct (decide _).
  - intros [= ->] Hin. by right.
  - intros Hafter Hin. right. by apply (IH rest).
Qed.

Lemma sim_known_types step :
  KnownTypes (H := Sim.collaborators step) Sim.knownEventTypes Sim.knownChain.
Proof.
  split; cbn.
  - done.
  - done.
  - done.
  - done.
  - intros stp c key w Hw. unfold Sim.sim_getNodesFromCursor.
    destruct (decide _); [done|]. by destruct (Sim.nodes_after _ _).
  - intros key w Hw. unfold Sim.sim_getHeadTailNodeTargetNode.
    destruct (Sim.chain w); [done|]. by destruct (last _).
  - intros key w Hw. unfold Sim.sim_getLatestEventDetail.
    destruct (last _); [|done]. by destruct (_ !! _).
  - intros k w Hw. unfold Sim.sim_cache_Get. by destruct (_ !! _).
  - done.
  - intros stp c key w nodes w' Hw. unfold Sim.sim_getNodesFromCursor.
    destruct (decide _).
    + intros [= <- _] node Hin. apply Hw. by apply (subseteq_take (Z.to_nat stp)).
    + destruct (Sim.nodes_after c (Sim.chain w)) as [rest|] eqn:E; [|done].
      intros [= <- _] node Hin. apply Hw.
      apply (nodes_after_elem c _ rest); [done|]. by apply (subseteq_take (Z.to_nat stp)).
  - intros key w node detail w' Hw. unfold Sim.sim_getLatestEventDetail.
    destruct (last (Sim.chain w)) as [newest|] eqn:E; [|done].
    destruct (_ !! _); [|done]. intros [= <- _ _]. apply Hw.
    apply last_Some in E as [l' ->]. apply elem_of_app. right. by left.
Qed.

Import Sim.

Ltac evaluate := first [reflexivity | vm_compute; intuition congruence].


Lemma C4_witness :
  fst (watchWithStartFrom (H := step2) (1 + 3) hostKey wantDelete (start abcWorld))
  = Ok [WatchEventResp.mk "C" "host" (Some (detailOf "c"))].
Proof.
  erewrite (C4_startFrom_miss_at_tail (H := step2) 1 2 hostKey wantDelete (start abcWorld));
    [|evaluate ..].
  reflexivity.
Defined.

Lemma C7_witness :
  fst (WatchEvent (H := step1) (2 + 1) "host" (inr bodyDelete101) (start slowWorld))
  = Ok (WriteError 200 (mkRespError CCErrCommHTTPInputInvalid))
  ∧ fst (watchWithStartFrom (H := step1) (2 + 1) hostKey
           (withResource bodyDelete101 "host") (start slowWorld))
    = Err "scan the event cost too long time".
Proof.
  pose proof (C7_startFrom_scan_budget (H := step1) 2 0 "host" bodyDelete101 hostKey
                (start slowWorld)) as HC7.
  cbv zeta in HC7.
  edestruct HC7 as (Hrun & Hw & _); [evaluate ..|].
  rewrite Hw, Hrun. split; reflexivity.
Defined.

Lemma C10_witness :
  WatchEventResp.Detail
    <$> match fst (watchWithStartFrom (H := step2) (1 + 3) hostKey wantDelete (start abcWorld)) with
        | Ok events => events
        | _ => []
        end
  = [Some (detailOf "c")]
  ∧ cutJsonDataWithFields (detailOf "c") (WatchEventOptions.Fields wantDelete)
    ≠ detailOf "c".
Proof.
  split; [|vm_compute; congruence].
  edestruct (C10_tail_detail_not_projected (H := step2) 1 2 hostKey wantDelete (start abcWorld))
    as (Hraw & _ & _ & _); [evaluate ..|].
  exact Hraw.
Defined.

Lemma C2_witness :
  fst (watchWithCursor (H := step2) (1 + 1) hostKey bodyAfterC (start slowWorld))
  = Ok [WatchEventResp.mk "NoEventCursor" "host" None]
  ∧ fst (watchWithCursor (H := step2) (1 + 1) hostKey bodyDeleteAfterA (start slowWorld))
    = Ok [WatchEventResp.mk "C" "host" None].
Proof.
  split.
  - pose proof (C2_cursor_deadline (H := step2) 1 0 hostKey bodyAfterC (start slowWorld)) as HC2.
    cbv zeta in HC2.
    edestruct HC2 as (Hempty & _); [evaluate ..|].
    rewrite Hempty; reflexivity.
  - pose proof (C2_cursor_deadline (H := step2) 1 0 hostKey bodyDeleteAfterA (start slowWorld)) as HC2.
    cbv zeta in HC2.
    edestruct HC2 as (_ & Hnopass); [evaluate ..|].
    erewrite Hnopass; [|evaluate ..]. reflexivity.
Defined.

(** C3, as stated, fails: on a chain with one event the head target
    points to the tail key, [now - StartFrom] lies within the TTL, and
    the request is refused by the too-old check instead of reaching the
    scan. *)
Lemma C3_counterexample :
  fst (world_getHeadTailNodeTargetNode (Collaborators := step200) hostKey (oneEventWorld 1100))
  = inr (nodeX, nodeX)
  ∧ ChainNode.NextCursor nodeX = Key.TailKey hostKey
  ∧ (0 ≤ 1100 - WatchEventOptions.StartFrom from500 ≤ Key.TTLSeconds hostKey)%Z
  ∧ watchWithStartFrom (H := step200) 5 hostKey from500 (start (oneEventWorld 1100))
    = (Err "bk_start_from value is too small",
       mkSt (tick (oneEventWorld 1100)) [CallGetHeadTailNodeTargetNode; CallNowUnix])
  ∧ ¬ (∃ events,
         fst (watchWithStartFrom (H := step200) 5 hostKey from500 (start (oneEventWorld 1100)))
         = Ok events).
Proof.
  split; [reflexivity|]. split; [reflexivity|]. split; [vm_compute; intuition congruence|].
  split; [reflexivity|]. intros [events Hev]. vm_compute in Hev. congruence.
Qed.

Lemma C3_witness :
  fst (watchWithStartFrom (H := step2) 5 hostKey from500 (start (oneEventWorld 4200)))
  = Err "bk_start_from value is out of range"
  ∧ fst (watchWithStartFrom (H := step2) 5 hostKey from500 (start (oneEventWorld 1100)))
    = Err "bk_start_from value is too small"
  ∧ fst (watchWithStartFrom (H := step2) 5 hostKey (WatchEventOptions.mk [] [] 0 "" "host")
           (start (mkWorld (150 * time_Second) time_Millisecond [] ∅)))
    = Ok [WatchEventResp.mk "NoEventCursor" "host" None].
Proof.
  split; [|split].
  - edestruct (C3_startFrom_empty_chain (H := step2) 5 hostKey from500
                 (start (oneEventWorld 4200))) as (Hout & _ & _); [evaluate ..|].
    rewrite Hout; [reflexivity|]. vm_compute; intuition congruence.
  - edestruct (C3_startFrom_empty_chain (H := step2) 5 hostKey from500
                 (start (oneEventWorld 1100))) as (_ & Hin & _); [evaluate ..|].
    rewrite Hin; [reflexivity|]. vm_compute; intuition congruence.
  - edestruct (C3_startFrom_empty_chain (H := step2) 4 hostKey
                 (WatchEventOptions.mk [] [] 0 "" "host")
                 (start (mkWorld (150 * time_Second) time_Millisecond [] ∅)))
      as (_ & _ & Hscan); [evaluate ..|].
    erewrite Hscan; [|evaluate ..]. reflexivity.
Defined.

(** C5, as stated, fails: the chain is not empty and its tail target is
    older than StartFrom, but its head target is newer than StartFrom, so
    the request is refused by the too-old check, which comes first, and
    the latest event is never read. *)
Lemma C5_counterexample :
  fst (world_getHeadTailNodeTargetNode (Collaborators := step200) hostKey unorderedWorld)
  = inr (nodeP, nodeQ)
  ∧ ChainNode.NextCursor nodeP ≠ Key.TailKey hostKey
  ∧ ChainNode.NextCursor nodeQ ≠ Key.HeadKey hostKey
  ∧ (Sec (ChainNode.ClusterTime nodeQ) < WatchEventOptions.StartFrom from150)%Z
  ∧ watchWithStartFrom (H := step200) 5 hostKey from150 (start unorderedWorld)
    = (Err "bk_start_from value is too small",
       mkSt (tick unorderedWorld) [CallGetHeadTailNodeTargetNode]).
Proof.
  split; [reflexivity|]. split; [vm_compute; congruence|].
  split; [vm_compute; congruence|]. split; reflexivity.
Qed.

Lemma C5_witness :
  watchWithStartFrom (H := step2) 0 hostKey from5000 (start abcWorld)
  = (Ok [WatchEventResp.mk "C" "host" (Some (cutJsonDataWithFields (detailOf "c") ["name"]))],
     mkSt (tick (tick abcWorld)) [CallGetHeadTailNodeTargetNode; CallGetLatestEventDetail]).
Proof.
  edestruct (C5_startFrom_ahead_of_tail (H := step2) 0 hostKey from5000 (start abcWorld))
    as (_ & Hrun & _); [evaluate ..|].
  rewrite Hrun. reflexivity.
Defined.

(** C6, as stated, fails: the head target is newer than StartFrom, but the
    chain has one event and StartFrom is older than the TTL, so the
    request is refused by the empty-chain check with "out of range". *)
Lemma C6_counterexample :
  fst (world_getHeadTailNodeTargetNode (Collaborators := step200) hostKey (oneEventWorld 4200))
  = inr (nodeX, nodeX)
  ∧ (Sec (ChainNode.ClusterTime nodeX) > WatchEventOptions.StartFrom from500)%Z
  ∧ fst (watchWithStartFrom (H := step200) 5 hostKey from500 (start (oneEventWorld 4200)))
    = Err "bk_start_from value is out of range"
  ∧ fst (watchWithStartFrom (H := step200) 5 hostKey from500 (start (oneEventWorld 4200)))
    ≠ Err "bk_start_from value is too small".
Proof.
  split; [reflexivity|]. split; [reflexivity|]. split; [reflexivity|].
  vm_compute. congruence.
Qed.

Lemma C6_witness :
  fst (watchWithStartFrom (H := step2) 5 hostKey from500 (start (oneEventWorld 1100)))
  = Err "bk_start_from value is too small"
  ∧ fst (watchWithStartFrom (H := step2) 5 hostKey from1000 (start (oneEventWorld 1100)))
    = Ok [WatchEventResp.mk "X" "host" (Some (detailOf "x"))].
Proof.
  split.
  - edestruct (C6_startFrom_too_small (H := step2) 5 hostKey from500
                 (start (oneEventWorld 1100))) as (Hsmall & _); [evaluate ..|].
    rewrite Hsmall; [reflexivity|]. vm_compute; intuition congruence.
  - edestruct (C6_startFrom_too_small (H := step2) 5 hostKey from1000
                 (start (oneEventWorld 1100))) as (_ & Hequal); [evaluate ..|].
    rewrite Hequal; [reflexivity|]. vm_compute; intuition congruence.
Defined.

Lemma C9_witness :
  fst (WatchEvent (H := step2) 0 "host" (inr bodyUpdateNow) (start abcWorld))
  = Ok (WriteEntity [WatchEventResp.mk "NoEventCursor" "host" None])
  ∧ fst (WatchEvent (H := step2) 0 "host" (inr bodyAnyNow) (start abcWorld))
    = Ok (WriteEntity [WatchEventResp.mk "C" "host"
                         (Some (cutJsonDataWithFields (detailOf "c") ["name"]))]).
Proof.
  split.
  - pose proof (C9_from_now (H := step2) 0 "host" bodyUpdateNow hostKey (start abcWorld)) as HC9.
    cbv zeta in HC9.
    edestruct HC9 as (_ & Hw); [evaluate ..|].
    rewrite Hw. reflexivity.
  - pose proof (C9_from_now (H := step2) 0 "host" bodyAnyNow hostKey (start abcWorld)) as HC9.
    cbv zeta in HC9.
    edestruct HC9 as (_ & Hw); [evaluate ..|].
    rewrite Hw. reflexivity.
Defined.

Lemma C8_witness :
  getHitNodeWithEventType [nodeA; nodeB; nodeC] ["create"] = [nodeA; nodeC]
  ∧ getHitNodeWithEventType [nodeA; nodeB; nodeC] knownEventTypes = [nodeA; nodeB; nodeC]
  ∧ WatchEvent (H := step2) 3 "host" (inr (withEventTypes wantCreate [])) (start abcWorld)
    = WatchEvent (H := step2) 3 "host" (inr (withEventTypes wantCreate knownEventTypes))
        (start abcWorld).
Proof.
  edestruct (C8_event_type_filter (H := step2) knownEventTypes knownChain
               [nodeA; nodeB; nodeC] ["create"] 3 "host" wantCreate (start abcWorld))
    as (Hnil & Hfilter & Hall & Hreq).
  - apply sim_known_types.
  - intros node Hin.
    apply (proj1 (Forall_forall (λ n, ChainNode.EventType n ∈ knownEventTypes)
                    [nodeA; nodeB; nodeC])); [repeat constructor|exact Hin].
  - intros node Hin.
    apply (proj1 (Forall_forall (λ n, ChainNode.EventType n ∈ knownEventTypes)
                    [nodeA; nodeB; nodeC])); [repeat constructor|exact Hin].
  - reflexivity.
  - split; [|split].
    + rewrite Hfilter by done. reflexivity.
    + rewrite <- Hall. exact Hnil.
    + exact Hreq.
Defined.

(** ** Boundary scenarios of the specification, run on the in-memory world *)

(** S4: StartFrom inside the range, with a filter. *)
Example S4_startFrom_inside_range_with_filter :
  fst (WatchEvent (H := step200) 5 "host" (inr s4Request) (start abcWorld))
  = Ok (WriteEntity [WatchEventResp.mk "C" "host" (Some (detailOf "c"))]).
Proof. reflexivity. Qed.

(** S5: StartFrom older than the head target. *)
Example S5_startFrom_too_old :
  fst (watchWithStartFrom (H := step200) 5 hostKey from500 (start (oneEventWorld 1100)))
  = Err "bk_start_from value is too small".
Proof. reflexivity. Qed.

(** S6: StartFrom ahead of the tail target. *)
Example S6_startFrom_ahead_of_tail :
  fst (WatchEvent (H := step200) 5 "host" (inr s6Request) (start abcWorld))
  = Ok (WriteEntity [WatchEventResp.mk "C" "host" (Some (detailOf "c"))]).
Proof. reflexivity. Qed.

(** S7: cursor mode from the head key with a type filter and a projection. *)
Example S7_cursor_hits_with_filter :
  fst (WatchEvent (H := step200) 5 "host" (inr s7Request) (start abcWorld))
  = Ok (WriteEntity
          [WatchEventResp.mk "B" "host" (Some (cutJsonDataWithFields (detailOf "b") ["name"]))]).
Proof. reflexivity. Qed.

(** * Further properties of the handler *)

(** ** What a run returns *)

Section Ensures.
Context {W : Type}.

Lemma ensures_ret {A} (Q : A → Prop) (a : A) : Q a → ensures (W := W) Q (ret a).
Proof. intros Ha s a' s' [= <- _]. done. Qed.

Lemma ensures_throw {A} (Q : A → Prop) e : ensures (W := W) Q (throw e).
Proof. by intros s a s'. Qed.

Lemma ensures_panic {A} (Q : A → Prop) msg : ensures (W := W) Q (panic msg).
Proof. by intros s a s'. Qed.

Lemma ensures_bind {A B} (Q : B → Prop) (m : M W A) (k : A → M W B) :
  (∀ a, ensures Q (k a)) → ensures Q (bind m k).
Proof.
  intros Hk s b s'. unfold bind.
  destruct (m s) as [[a|e|msg|] s1]; try done. apply Hk.
Qed.

Lemma ensures_bind_strong {A B} (P : A → Prop) (Q : B → Prop) (m : M W A) (k : A → M W B) :
  ensures P m → (∀ a, P a → ensures Q (k a)) → ensures Q (bind m k).
Proof.
  intros Hm Hk s b s'. unfold bind.
  destruct (m s) as [[a|e|msg|] s1] eqn:E; try done. apply Hk. by apply (Hm s a s1).
Qed.

Lemma ensures_iter {I R} (Q : R → Prop) fuel (body : I → M W (I + R)) i :
  (∀ i, ensures (λ r, match r with inl _ => True | inr x => Q x end) (body i)) →
  ensures Q (iter fuel body i).
Proof.
  intros Hbody. revert i. induction fuel as [|fuel IH]; intros i s r s'; [done|].
  simpl. destruct (body i s) as [[[j|x]|e|msg|] s1] eqn:E; try done.
  - apply IH.
  - intros [= <- _]. apply (Hbody i s (inr x) s1 E).
Qed.

End Ensures.

Section Shape.
Context {W : Type} `{Collaborators W}.
Implicit Types (s : St W) (key : Key.t) (opts : WatchEventOptions.t).

Lemma answer_shape_single opts cursor :
  answer_shape (WatchEventOptions.Resource opts)
    [WatchEventResp.mk cursor (WatchEventOptions.Resource opts) None].
Proof. split; [by repeat constructor|]. right. by eexists. Qed.

Lemma answer_shape_detail opts cursor detail :
  answer_shape (WatchEventOptions.Resource opts)
    [WatchEventResp.mk cursor (WatchEventOptions.Resource opts) (Some detail)].
Proof. split; [by repeat constructor|]. left. split; [done|]. by repeat constructor. Qed.

Lemma ensures_getEventsWithCursorNodes opts hitNodes key :
  hitNodes ≠ [] →
  ensures (answer_shape (WatchEventOptions.Resource opts))
          (getEventsWithCursorNodes opts hitNodes key).
Proof.
  intros Hne. unfold getEventsWithCursorNodes. apply ensures_bind. intros results.
  apply ensures_ret. split; [|left; split].
  - apply Forall_forall. intros r [i [node [-> _]]]%elem_of_lookup_imap. done.
  - intros Hnil. apply (f_equal length) in Hnil. rewrite length_imap in Hnil.
    by destruct hitNodes.
  - apply Forall_forall. intros r [i [node [-> _]]]%elem_of_lookup_imap. by eexists.
Qed.

Lemma ensures_scanRound key opts timeout c :
  ensures (λ r, match r with
                | inl _ => True
                | inr events => answer_shape (WatchEventOptions.Resource opts) events
                end)
          (scanRound key opts timeout c).
Proof.
  unfold scanRound. apply ensures_bind. intros [|]; [apply ensures_throw|].
  apply ensures_bind. intros nodes.
  destruct (decide (length nodes = 0)); [apply ensures_ret, answer_shape_single|].
  destruct (decide (length _ ≠ 0)) as [Hlen|Hlen].
  - apply ensures_bind_strong with (P := answer_shape (WatchEventOptions.Resource opts)).
    + apply ensures_getEventsWithCursorNodes. intros Hnil. by rewrite Hnil in Hlen.
    + intros events Hev. by apply ensures_ret.
  - destruct (_ !! _) as [lastNode|]; [|apply ensures_panic].
    destruct (decide _); [|by apply ensures_ret].
    apply ensures_bind. intros detail. apply ensures_ret, answer_shape_detail.
Qed.

Lemma ensures_cursorRound key opts startCursor start u :
  ensures (λ r, match r with
                | inl _ => True
                | inr events => answer_shape (WatchEventOptions.Resource opts) events
                end)
          (cursorRound key opts startCursor start u).
Proof.
  unfold cursorRound. apply ensures_bind. intros nodes.
  destruct (decide (length nodes = 0)).
  { apply ensures_bind. intros now. destruct (_ >? _)%Z.
    - apply ensures_ret, answer_shape_single.
    - apply ensures_bind. intros _. by apply ensures_ret. }
  destruct (decide (length _ ≠ 0)) as [Hlen|Hlen].
  - apply ensures_bind_strong with (P := answer_shape (WatchEventOptions.Resource opts)).
    + apply ensures_getEventsWithCursorNodes. intros Hnil. by rewrite Hnil in Hlen.
    + intros events Hev. by apply ensures_ret.
  - apply ensures_bind. intros now. destruct (_ >? _)%Z.
    + destruct (_ !! _) as [lastNode|]; [|apply ensures_panic].
      apply ensures_ret, answer_shape_single.
    + apply ensures_bind. intros _. by apply ensures_ret.
Qed.

Lemma ensures_watchFromNow key opts :
  ensures (λ r, answer_shape (WatchEventOptions.Resource opts) [r])
          (watchFromNow key opts).
Proof.
  unfold watchFromNow. apply ensures_bind. intros [node detail].
  destruct (decide _); apply ensures_ret;
    [apply answer_shape_single|apply answer_shape_detail].
Qed.

Lemma ensures_watchWithCursor fuel key opts :
  ensures (answer_shape (WatchEventOptions.Resource opts))
          (watchWithCursor fuel key opts).
Proof.
  unfold watchWithCursor. apply ensures_bind. intros start.
  apply ensures_iter. intros u. apply ensures_cursorRound.
Qed.

Lemma ensures_watchWithStartFrom fuel key opts :
  ensures (answer_shape (WatchEventOptions.Resource opts))
          (watchWithStartFrom fuel key opts).
Proof.
  unfold watchWithStartFrom. apply ensures_bind. intros [h t].
  apply ensures_bind. intros _.
  destruct (_ >? _)%Z; [apply ensures_throw|].
  destruct (_ <? _)%Z.
  - apply ensures_bind_strong
      with (P := λ r, answer_shape (WatchEventOptions.Resource opts) [r]).
    + apply ensures_watchFromNow.
    + intros r Hr. by apply ensures_ret.
  - apply ensures_bind. intros timeout.
    apply ensures_iter. intros c. apply ensures_scanRound.
Qed.

Lemma answer_shape_nonempty resource events :
  answer_shape resource events → events ≠ [].
Proof. by intros [_ [[Hne _]|[cursor ->]]]. Qed.

(** X1. Whatever the cache and the clock answer, a list returned by the
    cursor strategy or by the StartFrom strategy is never empty: it is
    either a list of events that all carry a detail, or one single entry
    without detail; every entry carries the resource of the request. *)
Theorem X1_answers_are_never_empty fuel key opts s events s' :
  watchWithCursor fuel key opts s = (Ok events, s')
  ∨ watchWithStartFrom fuel key opts s = (Ok events, s') →
  events ≠ []
  ∧ Forall (λ r, WatchEventResp.Resource r = WatchEventOptions.Resource opts) events
  ∧ (Forall (λ r, is_Some (WatchEventResp.Detail r)) events
     ∨ ∃ cursor, events = [WatchEventResp.mk cursor (WatchEventOptions.Resource opts) None]).
Proof.
  intros Hrun.
  assert (Hshape : answer_shape (WatchEventOptions.Resource opts) events).
  { destruct Hrun as [Hrun|Hrun].
    - by apply (ensures_watchWithCursor fuel key opts s events s').
    - by apply (ensures_watchWithStartFrom fuel key opts s events s'). }
  split; [by apply (answer_shape_nonempty _ _ Hshape)|].
  destruct Hshape as [Hres [[Hne Hall]|[cursor ->]]].
  - split; [done|]. by left.
  - split; [done|]. right. by eexists.
Qed.

(** X2. Whatever the request and whatever the cache and the clock answer,
    a response the handler writes has HTTP status 200; when it is a list
    of events the list is not empty and every entry carries the resource
    of the URL path, not the one of the request body. *)
Theorem X2_handler_always_200 fuel resource body s response s' :
  WatchEvent fuel resource body s = (Ok response, s') →
  match response with
  | WriteError status _ => status = 200%Z
  | WriteEntity events =>
      events ≠ [] ∧ Forall (λ r, WatchEventResp.Resource r = resource) events
  end.
Proof.
  unfold WatchEvent. destruct body as [err|decoded]; [by intros [= <- _]|].
  destruct (Validate _) as [err|]; [by intros [= <- _]|].
  cbn [withResource WatchEventOptions.Resource WatchEventOptions.Cursor
       WatchEventOptions.StartFrom].
  destruct (GetResourceKeyWithCursorType resource) as [err|key]; [by intros [= <- _]|].
  set (opts := withResource decoded resource).
  assert (Hlist : ∀ events, answer_shape (WatchEventOptions.Resource opts) events →
            events ≠ [] ∧ Forall (λ r, WatchEventResp.Resource r = resource) events).
  { intros events Hshape. split; [by apply (answer_shape_nonempty _ _ Hshape)|].
    by destruct Hshape as [Hres _]. }
  destruct (decide (String.length _ ≠ 0)).
  { rewrite (try_respond WriteEntity). unfold respond.
    destruct (watchWithCursor fuel key opts s) as [[events|e|msg|] s1] eqn:E;
      intros [= <- _]; [|done].
    apply Hlist. by apply (ensures_watchWithCursor fuel key opts s events s1). }
  destruct (decide (_ ≠ 0%Z)).
  { rewrite (try_respond WriteEntity). unfold respond.
    destruct (watchWithStartFrom fuel key opts s) as [[events|e|msg|] s1] eqn:E;
      intros [= <- _]; [|done].
    apply Hlist. by apply (ensures_watchWithStartFrom fuel key opts s events s1). }
  rewrite (try_respond (λ events, WriteEntity [events])). unfold respond.
  destruct (watchFromNow key opts s) as [[event|e|msg|] s1] eqn:E;
    intros [= <- _]; [|done].
  apply Hlist. by apply (ensures_watchFromNow key opts s event s1).
Qed.

(** X15. The error body tells a body that does not decode from every
    other failure, and tells nothing else: a body that does not decode is
    answered with the JSON error code before anything is read; a body that
    decodes is answered with events or with the one input-invalid code,
    be the failure a validation error, an unknown resource, a start time
    out of range or too small, a failure of the cache or the scan budget. *)
Theorem X15_error_codes fuel resource body s response s' :
  WatchEvent fuel resource body s = (Ok response, s') →
  match body with
  | inl _ =>
      response = WriteError 200 (mkRespError CCErrCommJSONUnmarshalFailed) ∧ s' = s
  | inr _ =>
      response = WriteError 200 (mkRespError CCErrCommHTTPInputInvalid)
      ∨ ∃ events, response = WriteEntity events
  end.
Proof.
  unfold WatchEvent. destruct body as [err|decoded]; [by intros [= <- <-]|].
  destruct (Validate _) as [err|]; [intros [= <- _]; by left|].
  cbn [withResource WatchEventOptions.Resource WatchEventOptions.Cursor
       WatchEventOptions.StartFrom].
  destruct (GetResourceKeyWithCursorType resource) as [err|key];
    [intros [= <- _]; by left|].
  set (opts := withResource decoded resource).
  destruct (decide (String.length _ ≠ 0)).
  { rewrite (try_respond WriteEntity). unfold respond.
    destruct (watchWithCursor fuel key opts s) as [[events|e|msg|] s1];
      intros [= <- _]; [right; by eexists|by left]. }
  destruct (decide (_ ≠ 0%Z)).
  { rewrite (try_respond WriteEntity). unfold respond.
    destruct (watchWithStartFrom fuel key opts s) as [[events|e|msg|] s1];
      intros [= <- _]; [right; by eexists|by left]. }
  rewrite (try_respond (λ events, WriteEntity [events])). unfold respond.
  destruct (watchFromNow key opts s) as [[event|e|msg|] s1];
    intros [= <- _]; [right; by eexists|by left].
Qed.

End Shape.

(** ** What a run calls *)

Section Traces.
Context {W : Type}.

(** The log of a loop: the calls of the rounds that went on, then the
    calls of the round that ended it (none when the fuel ran out). *)
Lemma iter_trace {I R} (next : I → list Call) (final : I → list Call → Prop)
    (body : I → M W (I + R)) (fuel : nat) (i : I) (s : St W) :
  (∀ i s, ∃ l, calls (snd (body i s)) = calls s ++ l
               ∧ match fst (body i s) with
                 | Ok (inl _) => l = next i
                 | _ => final i l
                 end) →
  ∃ (visited : list I) (last : list Call),
    (length visited ≤ fuel)%nat
    ∧ (visited = [] ∨ head visited = Some i)
    ∧ calls (snd (iter fuel body i s)) = calls s ++ mjoin (next <$> visited) ++ last
    ∧ (last = [] ∨ ∃ j, final j last).
Proof.
  intros Hbody. revert i s. induction fuel as [|fuel IH]; intros i s.
  { exists [], []. cbn. rewrite app_nil_r. repeat split; auto. }
  destruct (Hbody i s) as (l & Hl & Hcase). simpl.
  destruct (body i s) as [[[j|r]|e|msg|] s1] eqn:E; cbn in Hl, Hcase.
  - destruct (IH j s1) as (visited & last & Hlen & _ & Hcalls & Hlast).
    exists (i :: visited), last. cbn. split; [lia|]. split; [by right|].
    split; [|done]. rewrite Hcalls, Hl, Hcase. by rewrite <- !app_assoc.
  - exists [], l. cbn. split; [lia|]. split; [by left|]. split; [done|]. right. by exists i.
  - exists [], l. cbn. split; [lia|]. split; [by left|]. split; [done|]. right. by exists i.
  - exists [], l. cbn. split; [lia|]. split; [by left|]. split; [done|]. right. by exists i.
  - exists [], l. cbn. split; [lia|]. split; [by left|]. split; [done|]. right. by exists i.
Qed.

End Traces.

Section Footprints.
Context {W : Type} `{Collaborators W}.
Implicit Types (s : St W) (key : Key.t) (opts : WatchEventOptions.t).

Ltac log := cbn [calls snd fst]; rewrite <- ?app_assoc; cbn [app]; reflexivity.

Lemma cursorRound_trace key opts startCursor start u s :
  ∃ l, calls (snd (cursorRound key opts startCursor start u s)) = calls s ++ l
       ∧ match fst (cursorRound key opts startCursor start u s) with
         | Ok (inl _) => l = cursorRetry eventStep startCursor
         | _ => cursorLast eventStep startCursor l
         end.
Proof.
  unfold cursorRound, getNodesFromCursor, getEventsWithCursorNodes, time_Now_Unix,
    time_Sleep, call_checked, bind, call, ret, throw, cursorLast, cursorRetry, loopInternal.
  destruct (world_getNodesFromCursor _ _ _ _) as [[e|nodes] w1]; cbn.
  { eexists. split; [log|]. by left. }
  destruct (decide (length nodes = 0)) as [|Hlen].
  { cbn. destruct (world_Now_Unix _) as [now w2]. cbn.
    destruct (_ >? _)%Z; cbn.
    - eexists. split; [log|]. right. by left.
    - destruct (world_Sleep _ _) as [[] w3]. cbn. eexists. split; [log|]. done. }
  destruct (decide (length _ ≠ 0)).
  { cbn. destruct (world_pipeline_Exec _ _) as [[e3|vals] w3]; cbn;
      (eexists; split; [log|]; right; right; by eexists). }
  cbn. destruct (world_Now_Unix _) as [now w2]. cbn.
  destruct (_ >? _)%Z; cbn.
  - destruct (last_index_in_range nodes Hlen) as [lastNode ->]. cbn.
    eexists. split; [log|]. right. by left.
  - destruct (world_Sleep _ _) as [[] w3]. cbn. eexists. split; [log|]. done.
Qed.

Lemma scanRound_trace key opts timeout c s :
  ∃ l, calls (snd (scanRound key opts timeout c s)) = calls s ++ l
       ∧ match fst (scanRound key opts timeout c s) with
         | Ok (inl _) => l = scanNext eventStep c
         | _ => scanLast eventStep c l
         end.
Proof.
  unfold scanRound, select_ready, getNodesFromCursor, getEventsWithCursorNodes,
    cache_Get, call_checked, bind, call, ret, throw, scanLast, scanNext.
  destruct (world_chan_ready _ _) as [[|] w1]; cbn.
  { eexists. split; [log|]. by left. }
  destruct (world_getNodesFromCursor _ _ _ _) as [[e|nodes] w2]; cbn.
  { eexists. split; [log|]. right. by left. }
  destruct (decide (length nodes = 0)) as [|Hlen].
  { cbn. eexists. split; [log|]. right. by left. }
  destruct (decide (length _ ≠ 0)).
  { cbn. destruct (world_pipeline_Exec _ _) as [[e3|vals] w3]; cbn;
      (eexists; split; [log|]; right; right; left; by eexists). }
  destruct (last_index_in_range nodes Hlen) as [lastNode ->].
  destruct (decide _).
  - cbn. destruct (world_cache_Get _ _) as [[e3|detail] w3]; cbn;
      (eexists; split; [log|]; right; right; right; by eexists).
  - cbn. eexists. split; [log|]. done.
Qed.

(** X3. The calls of a cursor request, whatever the answers: one read of
    the clock, then some rounds that each fetch the window after the same
    start cursor, read the clock and sleep 250 ms, then one last round
    that fetches that same window and either fails there, or reads the
    clock (the deadline answers), or runs one pipeline (the hits).  So the
    window is never moved forward, at most one pipeline is run and it is
    the last call, and no timer, single [Get], head/tail or latest-event
    read is ever made. *)
Theorem X3_cursor_request_calls fuel key opts s :
  let startCursor :=
    if decide (WatchEventOptions.Cursor opts = NoEventCursor)
    then Key.HeadKey key else WatchEventOptions.Cursor opts in
  ∃ (retries : nat) (last : list Call),
    (retries ≤ fuel)%nat
    ∧ calls (snd (watchWithCursor fuel key opts s))
      = calls s ++ [CallNowUnix]
          ++ mjoin (replicate retries (cursorRetry eventStep startCursor))
          ++ last
    ∧ (last = [] ∨ cursorLast eventStep startCursor last).
Proof.
  intros startCursor. unfold watchWithCursor, time_Now_Unix, bind, call.
  destruct (world_Now_Unix (world s)) as [start w1]. fold startCursor.
  destruct (iter_trace (λ _, cursorRetry eventStep startCursor)
              (λ _, cursorLast eventStep startCursor)
              (cursorRound key opts startCursor start) fuel tt
              (mkSt w1 (calls s ++ [CallNowUnix])))
    as (visited & last & Hlen & _ & Hcalls & Hlast).
  { intros u s0. apply cursorRound_trace. }
  exists (length visited), last. split; [done|]. split.
  - rewrite Hcalls. cbn [calls]. rewrite <- !app_assoc. do 2 f_equal.
    f_equal. f_equal. clear. induction visited as [|v visited IH]; [done|].
    cbn. by rewrite IH.
  - destruct Hlast as [->|[_ Hlast]]; [by left|by right].
Qed.

Lemma emptyChainCheck_trace key opts h t s :
  calls (snd (emptyChainCheck key opts h t s))
  = calls s ++ (if bool_decide (ChainNode.NextCursor h = Key.TailKey key)
                   || bool_decide (ChainNode.NextCursor t = Key.HeadKey key)
                then [CallNowUnix] else []).
Proof.
  unfold emptyChainCheck, time_Now_Unix, bind, call, ret, throw.
  destruct (_ || _).
  - destruct (world_Now_Unix _) as [now w1]. cbn. by destruct (_ || _).
  - cbn. by rewrite app_nil_r.
Qed.

(** X4. The calls of a StartFrom request, whatever the answers: the read
    of the head and tail targets; one read of the clock exactly when one
    of the two emptiness tests holds of the targets (so the start time is
    never compared with the clock on a chain that is not flagged empty);
    and then either nothing more (an error), or the one read of the
    latest event (from-now), or the scan: the timer is armed, then rounds
    that each poll the timer and fetch one window, the first from the
    head key, then one last round that polls the timer and stops there,
    or fetches a window and stops, or ends with one pipeline or one single
    [Get].  So the StartFrom strategy never sleeps, polls the timer before
    every window, and reads details at most once, as its last call. *)
Theorem X4_startFrom_request_calls fuel key opts s :
  ∃ (clock rest : list Call),
    calls (snd (watchWithStartFrom fuel key opts s))
    = calls s ++ CallGetHeadTailNodeTargetNode :: clock ++ rest
    ∧ (∀ h t w1,
         world_getHeadTailNodeTargetNode key (world s) = (inr (h, t), w1) →
         clock = if bool_decide (ChainNode.NextCursor h = Key.TailKey key)
                    || bool_decide (ChainNode.NextCursor t = Key.HeadKey key)
                 then [CallNowUnix] else [])
    ∧ (rest = []
       ∨ rest = [CallGetLatestEventDetail]
       ∨ ∃ (visited : list string) (last : list Call),
           (length visited ≤ fuel)%nat
           ∧ (visited = [] ∨ head visited = Some (Key.HeadKey key))
           ∧ rest = CallAfter (25 * time_Second)
                      :: mjoin (scanNext eventStep <$> visited) ++ last
           ∧ (last = [] ∨ ∃ c, scanLast eventStep c last)).
Proof.
  unfold watchWithStartFrom, getHeadTailNodeTargetNode, call_checked.
  unfold bind at 1 2. unfold call.
  destruct (world_getHeadTailNodeTargetNode key (world s)) as [[e|[h t]] w1]; cbn.
  { exists [], []. split; [done|]. split; [done|by left]. }
  set (s1 := mkSt w1 _).
  pose proof (emptyChainCheck_trace key opts h t s1) as Hclock.
  set (clock := if _ || _ then _ else _) in Hclock.
  assert (Hflag : ∀ h' t' (w1' : W), (@inr error _ (h, t), w1) = (inr (h', t'), w1') →
            clock = if bool_decide (ChainNode.NextCursor h' = Key.TailKey key)
                       || bool_decide (ChainNode.NextCursor t' = Key.HeadKey key)
                    then [CallNowUnix] else []).
  { by intros h' t' w1' [= <- <- _]. }
  unfold bind at 1.
  destruct (emptyChainCheck key opts h t s1) as [[[]|e|msg|] s2]; cbn in Hclock;
    try (exists clock, []; cbn; rewrite Hclock; unfold s1; cbn [calls];
         rewrite <- !app_assoc, app_nil_r; split; [done|]; split; [done|by left]).
  assert (Hs2 : calls s2 = calls s ++ CallGetHeadTailNodeTargetNode :: clock).
  { rewrite Hclock. unfold s1. cbn [calls]. by rewrite <- app_assoc. }
  destruct (_ >? _)%Z.
  { exists clock, []. cbn. rewrite Hs2, app_nil_r. split; [done|]. split; [done|by left]. }
  destruct (_ <? _)%Z.
  { exists clock, [CallGetLatestEventDetail]. split; [|split; [done|right; by left]].
    unfold bind, watchFromNow, getLatestEventDetail, call_checked, bind, call, ret, throw.
    destruct (world_getLatestEventDetail key (world s2)) as [[e|[node detail]] w3]; cbn;
      [|destruct (decide _); cbn]; rewrite Hs2; by rewrite <- !app_assoc. }
  unfold bind, time_After, call.
  destruct (world_After _ (world s2)) as [timeout w3].
  destruct (iter_trace (scanNext eventStep) (scanLast eventStep)
              (scanRound key opts timeout) fuel (Key.HeadKey key)
              (mkSt w3 (calls s2 ++ [CallAfter (25 * time_Second)])))
    as (visited & last & Hlen & Hhead & Hcalls & Hlast).
  { intros c s0. apply scanRound_trace. }
  exists clock, (CallAfter (25 * time_Second) :: mjoin (scanNext eventStep <$> visited) ++ last).
  split; [|split; [done|]].
  - rewrite Hcalls. cbn [calls]. rewrite Hs2. rewrite <- !app_assoc. cbn.
    by rewrite <- ?app_assoc.
  - right. right. by exists visited, last.
Qed.

End Footprints.

(** ** How the two loops move *)

Section Moves.
Context {W : Type} `{Collaborators W}.
Implicit Types (s : St W) (key : Key.t) (opts : WatchEventOptions.t)
               (nodes : list ChainNode.t).

Lemma scanRound_window_error key opts timeout c s w1 e w2 :
  world_chan_ready timeout (world s) = (false, w1) →
  world_getNodesFromCursor eventStep c key w1 = (inl e, w2) →
  scanRound key opts timeout c s
  = (Err e, mkSt w2 (calls s ++ [CallSelectTimeout; CallGetNodesFromCursor eventStep c])).
Proof.
  intros Hsel Hget. unfold scanRound, select_ready, getNodesFromCursor.
  rewrite (bind_ok _ _ _ _ _ (call_run _ _ _ _ _ Hsel)).
  assert (Hget' : world_getNodesFromCursor eventStep c key
                    (world (mkSt w1 (calls s ++ [CallSelectTimeout]))) = (inl e, w2)) by done.
  rewrite (bind_err _ _ _ _ _ (call_checked_err _ _ _ _ _ Hget')).
  cbn [calls]. by rewrite <- app_assoc.
Qed.

(** X5. A round of the StartFrom scan goes on to a further window exactly
    when the timer has not fired, the window it fetched is not empty,
    holds no node that passes the type filter and is not before
    StartFrom, and the last node of the window does not point to the tail
    key; the next window is then fetched after that last node's cursor. *)
Theorem X5_scan_moves_to_last_cursor key opts timeout c s c' s' :
  scanRound key opts timeout c s = (Ok (inl c'), s')
  ↔ ∃ w1 nodes w2 lastNode,
      world_chan_ready timeout (world s) = (false, w1)
      ∧ world_getNodesFromCursor eventStep c key w1 = (inr nodes, w2)
      ∧ filter (wanted opts) nodes = []
      ∧ last nodes = Some lastNode
      ∧ ChainNode.NextCursor lastNode ≠ Key.TailKey key
      ∧ c' = ChainNode.Cursor lastNode
      ∧ s' = mkSt w2 (calls s ++ scanNext eventStep c).
Proof.
  split.
  - destruct (world_chan_ready timeout (world s)) as [[|] w1] eqn:Hsel.
    { by rewrite (scanRound_timeout _ _ _ _ _ _ Hsel). }
    destruct (world_getNodesFromCursor eventStep c key w1) as [[e|nodes] w2] eqn:Hget.
    { by rewrite (scanRound_window_error _ _ _ _ _ _ _ _ Hsel Hget). }
    rewrite (scanRound_window _ _ _ _ _ _ _ _ Hsel Hget), filter_wanted.
    destruct nodes as [|n0 nodes']; [done|].
    destruct (filter (wanted opts) (n0 :: nodes')) as [|m0 ms] eqn:Hwanted.
    + destruct (last (n0 :: nodes')) as [lastNode|] eqn:Hlast; [|done].
      destruct (decide _) as [|Hnext].
      * unfold bind, cache_Get, call_checked, bind, call.
        by destruct (world_cache_Get _ _) as [[e3|detail] w3].
      * intros [= <- <-]. by exists w1, (n0 :: nodes'), w2, lastNode.
    + unfold bind, getEventsWithCursorNodes, call_checked, bind, call.
      by destruct (world_pipeline_Exec _ _) as [[e3|vals] w3].
  - intros (w1 & nodes & w2 & lastNode & Hsel & Hget & Hwanted & Hlast & Hnext & -> & ->).
    rewrite (scanRound_window _ _ _ _ _ _ _ _ Hsel Hget), filter_wanted, Hwanted, Hlast.
    destruct nodes as [|n0 nodes']; [done|]. by rewrite decide_False.
Qed.

(** X6. In cursor mode the special cursor NoEventCursor stands for the
    head key: a request holding it runs exactly as the same request
    holding the head key of the resource. *)
Theorem X6_no_event_cursor_is_head_key fuel key opts s :
  watchWithCursor fuel key (withCursor opts NoEventCursor) s
  = watchWithCursor fuel key (withCursor opts (Key.HeadKey key)) s.
Proof.
  unfold watchWithCursor. cbn [withCursor WatchEventOptions.Cursor].
  rewrite decide_True by done.
  by destruct (decide (Key.HeadKey key = NoEventCursor)).
Qed.


End Moves.

(** ** Failures of the cache *)

Section Failures.
Context {W : Type} `{Collaborators W}.
Implicit Types (s : St W) (key : Key.t) (opts : WatchEventOptions.t)
               (nodes : list ChainNode.t).

Lemma iter_error_fst {I R} fuel (body : I → M W (I + R)) i s e :
  fst (body i s) = Err e → fst (iter (S fuel) body i s) = Err e.
Proof. simpl. destruct (body i s) as [[[j|r]|e'|msg|] s1]; cbn; congruence. Qed.

Lemma getEventsWithCursorNodes_err opts hitNodes key s e w' :
  world_pipeline_Exec (detailKeys key hitNodes) (world s) = (inl e, w') →
  getEventsWithCursorNodes opts hitNodes key s
  = (Err e, mkSt w' (calls s ++ [CallPipelineExec (detailKeys key hitNodes)])).
Proof.
  intros Hex. unfold getEventsWithCursorNodes.
  by rewrite (bind_err _ _ _ _ _ (call_checked_err _ _ _ _ _ Hex)).
Qed.

(** X8. Failures of the cache during the StartFrom scan are returned as
    they are, at whatever round they happen: a failed window read; a
    failed pipeline, in which case none of the nodes that were hit is
    returned; and, at the tail without a match, a failed read of the last
    node's detail (for one that has expired), in which case the client
    gets an error and no cursor to resume from. *)
Theorem X8_scan_failures n fuel key opts s h t w1 s1 timeout w2 c s' w3 :
  world_getHeadTailNodeTargetNode key (world s) = (inr (h, t), w1) →
  emptyChainCheck key opts h t (mkSt w1 (calls s ++ [CallGetHeadTailNodeTargetNode]))
  = (Ok tt, s1) →
  (Sec (ChainNode.ClusterTime h) ≤ WatchEventOptions.StartFrom opts
   ≤ Sec (ChainNode.ClusterTime t))%Z →
  world_After (25 * time_Second) (world s1) = (timeout, w2) →
  rounds n (scanRound key opts timeout) (Key.HeadKey key)
         (mkSt w2 (calls s1 ++ [CallAfter (25 * time_Second)])) = Some (c, s') →
  world_chan_ready timeout (world s') = (false, w3) →
  (∀ e w4,
     world_getNodesFromCursor eventStep c key w3 = (inl e, w4) →
     fst (watchWithStartFrom (n + S fuel) key opts s) = Err e)
  ∧ (∀ nodes w4 e w5,
       world_getNodesFromCursor eventStep c key w3 = (inr nodes, w4) →
       filter (wanted opts) nodes ≠ [] →
       world_pipeline_Exec (detailKeys key (filter (wanted opts) nodes)) w4 = (inl e, w5) →
       fst (watchWithStartFrom (n + S fuel) key opts s) = Err e)
  ∧ (∀ nodes w4 lastNode e w5,
       world_getNodesFromCursor eventStep c key w3 = (inr nodes, w4) →
       filter (wanted opts) nodes = [] →
       last nodes = Some lastNode →
       ChainNode.NextCursor lastNode = Key.TailKey key →
       world_cache_Get (Key.DetailKey key (ChainNode.Cursor lastNode)) w4 = (inl e, w5) →
       fst (watchWithStartFrom (n + S fuel) key opts s) = Err e).
Proof.
  intros Hht Hchk Hrange Hafter Hrounds Hsel.
  rewrite (scan_at_round n (S fuel) _ _ _ _ _ _ _ _ _ c s' Hht Hchk Hrange Hafter Hrounds).
  split; [|split].
  - intros e w4 Hget.
    by rewrite (iter_error _ _ _ _ _ _ (scanRound_window_error _ _ _ _ _ _ _ _ Hsel Hget)).
  - intros nodes w4 e w5 Hget Hne Hpipe.
    apply iter_error_fst.
    rewrite (scanRound_window _ _ _ _ _ _ _ _ Hsel Hget), filter_wanted.
    destruct nodes as [|n0 nodes']; [done|].
    destruct (filter (wanted opts) (n0 :: nodes')) as [|m0 ms] eqn:E; [done|].
    set (s2 := mkSt w4 _).
    assert (Hpipe' : world_pipeline_Exec (detailKeys key (m0 :: ms)) (world s2) = (inl e, w5))
      by done.
    by rewrite (bind_err _ _ _ _ _ (getEventsWithCursorNodes_err opts _ key _ _ _ Hpipe')).
  - intros nodes w4 lastNode e w5 Hget Hnone Hlast Htail Hdet.
    apply iter_error_fst.
    rewrite (scanRound_window _ _ _ _ _ _ _ _ Hsel Hget), filter_wanted, Hnone, Hlast.
    destruct nodes as [|n0 nodes']; [done|].
    rewrite decide_True by done.
    set (s2 := mkSt w4 _).
    assert (Hdet' : world_cache_Get (Key.DetailKey key (ChainNode.Cursor lastNode)) (world s2)
                    = (inl e, w5)) by done.
    unfold cache_Get. by rewrite (bind_err _ _ _ _ _ (call_checked_err _ _ _ _ _ Hdet')).
Qed.

(** X9. Cursor mode: a failed window read (for one, a cursor that is no
    longer in the chain) ends the request at once with that error, at the
    first round without any wait; the handler writes it as the
    input-invalid error body with status 200. *)
Theorem X9_cursor_window_failure fuel resource decoded key s start w1 e w2 :
  let opts := withResource decoded resource in
  let startCursor :=
    if decide (WatchEventOptions.Cursor opts = NoEventCursor)
    then Key.HeadKey key else WatchEventOptions.Cursor opts in
  let send := mkSt w2 (calls s ++ [CallNowUnix;
                                   CallGetNodesFromCursor eventStep startCursor]) in
  Validate opts = None →
  GetResourceKeyWithCursorType resource = inr key →
  WatchEventOptions.Cursor decoded ≠ "" →
  world_Now_Unix (world s) = (start, w1) →
  world_getNodesFromCursor eventStep startCursor key w1 = (inl e, w2) →
  watchWithCursor (S fuel) key opts s = (Err e, send)
  ∧ WatchEvent (S fuel) resource (inr decoded) s
    = (Ok (WriteError 200 (mkRespError CCErrCommHTTPInputInvalid)), send).
Proof.
  intros opts startCursor send Hval Hkey Hcur Hstart Hget.
  assert (Hrun : watchWithCursor (S fuel) key opts s = (Err e, send)).
  { rewrite (watchWithCursor_loop _ _ _ _ _ _ Hstart). fold startCursor.
    apply iter_error. unfold cursorRound, getNodesFromCursor.
    set (s1 := mkSt w1 _).
    assert (Hget' : world_getNodesFromCursor eventStep startCursor key (world s1)
                    = (inl e, w2)) by done.
    rewrite (bind_err _ _ _ _ _ (call_checked_err _ _ _ _ _ Hget')).
    unfold send, s1. cbn [calls]. by rewrite <- app_assoc. }
  split; [done|].
  rewrite (WatchEvent_dispatch _ _ _ _ _ Hval Hkey).
  rewrite decide_True by (by destruct (WatchEventOptions.Cursor decoded)).
  fold opts. by rewrite Hrun.
Qed.

(** X10. A failed first read ends the request after that single call: in
    StartFrom mode the read of the head and tail targets, in from-now mode
    the read of the latest event.  From-now mode makes that one call and
    no other in every case, also when the type filter then discards the
    event it has read. *)
Theorem X10_first_read fuel key opts s :
  (∀ e w1,
     world_getHeadTailNodeTargetNode key (world s) = (inl e, w1) →
     watchWithStartFrom fuel key opts s
     = (Err e, mkSt w1 (calls s ++ [CallGetHeadTailNodeTargetNode])))
  ∧ (∀ e w1,
       world_getLatestEventDetail key (world s) = (inl e, w1) →
       watchFromNow key opts s
       = (Err e, mkSt w1 (calls s ++ [CallGetLatestEventDetail])))
  ∧ calls (snd (watchFromNow key opts s)) = calls s ++ [CallGetLatestEventDetail].
Proof.
  split; [|split].
  - intros e w1 Hht. unfold watchWithStartFrom, getHeadTailNodeTargetNode.
    by rewrite (bind_err _ _ _ _ _ (call_checked_err _ _ _ _ _ Hht)).
  - intros e w1 Hlatest. unfold watchFromNow, getLatestEventDetail.
    by rewrite (bind_err _ _ _ _ _ (call_checked_err _ _ _ _ _ Hlatest)).
  - unfold watchFromNow, getLatestEventDetail, call_checked, bind, call, ret, throw.
    destruct (world_getLatestEventDetail key (world s)) as [[e|[node detail]] w1]; cbn;
      [done|]. by destruct (decide _).
Qed.

End Failures.

(** ** The type filter as a function *)

(** X11. The requested types act as a set: two type lists with the same
    members select the same nodes, whatever the order of the types and
    however often one is repeated. *)
Theorem X11_requested_types_are_a_set (nodes : list ChainNode.t)
    (typs typs' : list EventType) :
  (∀ t, t ∈ typs ↔ t ∈ typs') →
  getHitNodeWithEventType nodes typs = getHitNodeWithEventType nodes typs'.
Proof.
  intros Hsame. rewrite !getHitNodeWithEventType_passes.
  apply list_filter_iff. intros node. unfold type_passes.
  assert (Hnil : typs = [] ↔ typs' = []).
  { split; intros ->.
    - destruct typs' as [|t typs']; [done|].
      pose proof (proj2 (Hsame t) (list_elem_of_here _ _)) as Hin.
      by apply elem_of_nil in Hin.
    - destruct typs as [|t typs]; [done|].
      pose proof (proj1 (Hsame t) (list_elem_of_here _ _)) as Hin.
      by apply elem_of_nil in Hin. }
  rewrite Hnil, (Hsame (ChainNode.EventType node)). done.
Qed.

(** X12. Filtering keeps the order of the nodes it keeps (its result is a
    sublist of its input), filtering twice with the same types changes
    nothing more, and filtering two windows one after the other gives the
    same nodes as filtering the two windows put together. *)
Theorem X12_filter_sublist_idempotent_append (nodes nodes' : list ChainNode.t)
    (typs : list EventType) :
  getHitNodeWithEventType nodes typs `sublist_of` nodes
  ∧ getHitNodeWithEventType (getHitNodeWithEventType nodes typs) typs
    = getHitNodeWithEventType nodes typs
  ∧ getHitNodeWithEventType (nodes ++ nodes') typs
    = getHitNodeWithEventType nodes typs ++ getHitNodeWithEventType nodes' typs.
Proof.
  rewrite !getHitNodeWithEventType_passes. split; [|split].
  - apply sublist_filter.
  - rewrite list_filter_filter. apply list_filter_iff. tauto.
  - apply filter_app.
Qed.

Section TailMiss.
Context {W : Type} `{Collaborators W}.

(** X13. The event the StartFrom scan returns at the tail without a match
    is one the request excludes: the node fails the type filter or is
    before StartFrom, and its cursor and full detail are returned all the
    same, in the form of a hit. *)
Theorem X13_tail_miss_returns_an_excluded_event n fuel key opts (s : St W)
    h t w1 s1 timeout w2 c s' w3 nodes w4 lastNode detail w5 :
  world_getHeadTailNodeTargetNode key (world s) = (inr (h, t), w1) →
  emptyChainCheck key opts h t (mkSt w1 (calls s ++ [CallGetHeadTailNodeTargetNode]))
  = (Ok tt, s1) →
  (Sec (ChainNode.ClusterTime h) ≤ WatchEventOptions.StartFrom opts
   ≤ Sec (ChainNode.ClusterTime t))%Z →
  world_After (25 * time_Second) (world s1) = (timeout, w2) →
  rounds n (scanRound key opts timeout) (Key.HeadKey key)
         (mkSt w2 (calls s1 ++ [CallAfter (25 * time_Second)])) = Some (c, s') →
  world_chan_ready timeout (world s') = (false, w3) →
  world_getNodesFromCursor eventStep c key w3 = (inr nodes, w4) →
  filter (wanted opts) nodes = [] →
  last nodes = Some lastNode →
  ChainNode.NextCursor lastNode = Key.TailKey key →
  world_cache_Get (Key.DetailKey key (ChainNode.Cursor lastNode)) w4 = (inr detail, w5) →
  fst (watchWithStartFrom (n + S fuel) key opts s)
  = Ok [WatchEventResp.mk (ChainNode.Cursor lastNode)
                          (WatchEventOptions.Resource opts) (Some detail)]
  ∧ ¬ (type_passes (WatchEventOptions.EventTypes opts) lastNode
       ∧ (WatchEventOptions.StartFrom opts ≤ Sec (ChainNode.ClusterTime lastNode))%Z).
Proof.
  intros Hht Hchk Hrange Hafter Hrounds Hsel Hget Hnone Hlast Htail Hdet. split.
  - by rewrite (scan_miss_at_tail n fuel key opts s h t w1 s1 timeout w2
                  c s' w3 nodes w4 lastNode detail w5).
  - intros Hwanted.
    assert (Hin : lastNode ∈ filter (wanted opts) nodes).
    { apply list_elem_of_filter. split; [done|].
      apply last_Some in Hlast as [l' ->]. apply elem_of_app. right. by left. }
    rewrite Hnone in Hin. by apply elem_of_nil in Hin.
Qed.

End TailMiss.

(** ** The deadline test *)

Lemma rounds_step {W I R} n (body : I → M W (I + R)) i (s : St W) i' s' i'' s'' :
  rounds n body i s = Some (i', s') →
  body i' s' = (Ok (inl i''), s'') →
  rounds (S n) body i s = Some (i'', s'').
Proof.
  revert i s. induction n as [|n IH]; intros i s.
  - intros [= -> ->] Hb. simpl. by rewrite Hb.
  - intros Hn Hb. change (rounds (S n) body i s) with
      (match body i s with
       | (Ok (inl j), s1) => rounds n body j s1
       | _ => None
       end) in Hn.
    change (rounds (S (S n)) body i s) with
      (match body i s with
       | (Ok (inl j), s1) => rounds (S n) body j s1
       | _ => None
       end).
    destruct (body i s) as [[[j|r]|e|msg|] s1]; try done. by apply IH.
Qed.

(** The test [now - start > 25] on two readings of a clock in whole
    seconds, against the nanoseconds between the readings. *)
Lemma deadline_test (t0 t1 : Z) :
  (0 ≤ t0)%Z → (0 ≤ t1)%Z →
  is_int64 (t0 `div` time_Second) → is_int64 (t1 `div` time_Second) →
  let test :=
    (sub64 (t1 `div` time_Second) (t0 `div` time_Second) >? timeoutWatchLoopSeconds)%Z in
  ((t1 - t0 ≤ 25 * time_Second)%Z → test = false)
  ∧ ((26 * time_Second ≤ t1 - t0)%Z → test = true).
Proof.
  unfold time_Second, timeoutWatchLoopSeconds, sub64, is_int64, int64_min, int64_max.
  intros H0 H1 Hr0 Hr1.
  assert (H0' : (0 ≤ t0 `div` 1000000000)%Z) by (apply Z.div_pos; lia).
  assert (H1' : (0 ≤ t1 `div` 1000000000)%Z) by (apply Z.div_pos; lia).
  rewrite wrap64_small by (unfold is_int64, int64_min, int64_max; lia).
  pose proof (Z.div_mod t0 1000000000) as Hd0.
  pose proof (Z.div_mod t1 1000000000) as Hd1.
  pose proof (Z.mod_pos_bound t0 1000000000) as Hm0.
  pose proof (Z.mod_pos_bound t1 1000000000) as Hm1.
  split.
  - intros Hearly. rewrite Z.gtb_ltb. apply Z.ltb_ge. lia.
  - intros Hlate. apply Z.gtb_gt. lia.
Qed.

(** ** The long poll ends *)

Section LongPoll.
Context {W : Type} `{Collaborators W}.
Context (T : W → Z) (Good : nat → W → Prop) `{!Ticking T Good}.
Implicit Types (s : St W) (key : Key.t) (opts : WatchEventOptions.t).

(** X16. The deadline of the cursor loop is taken in whole seconds.  Under
    a clock [T] that ticks, at any round of the loop of watchWithCursor
    whose window holds no node passing the type filter, with [elapsed]
    the nanoseconds of the clock between the reading at the start of the
    request and the reading of this round: when no more than 25 seconds
    have gone by, the round sleeps 250 ms and the loop goes on to a
    further round; once 26 seconds have gone by, the request returns the
    single entry without detail (the cursor of the window's last node, or
    NoEventCursor for an empty window). *)
Theorem X16_deadline_in_whole_seconds n fuel key opts s s' nodes w2 :
  let startCursor :=
    if decide (WatchEventOptions.Cursor opts = NoEventCursor)
    then Key.HeadKey key else WatchEventOptions.Cursor opts in
  let start := fst (world_Now_Unix (world s)) in
  let round := cursorRound key opts startCursor start in
  let s1 := mkSt (snd (world_Now_Unix (world s))) (calls s ++ [CallNowUnix]) in
  Good 1 (world s) →
  rounds n round tt s1 = Some (tt, s') →
  world_getNodesFromCursor eventStep startCursor key (world s') = (inr nodes, w2) →
  filter (type_passes (WatchEventOptions.EventTypes opts)) nodes = [] →
  Good 1 w2 →
  let elapsed := (T w2 - T (world s))%Z in
  let w3 := snd (world_Now_Unix w2) in
  let read := calls s' ++ [CallGetNodesFromCursor eventStep startCursor; CallNowUnix] in
  ((elapsed ≤ 25 * time_Second)%Z →
   rounds (S n) round tt s1
   = Some (tt, mkSt (snd (world_Sleep loopInternal w3)) (read ++ [CallSleep loopInternal])))
  ∧ ((26 * time_Second ≤ elapsed)%Z →
     watchWithCursor (n + S fuel) key opts s
     = (Ok [WatchEventResp.mk
              (from_option ChainNode.Cursor NoEventCursor (last nodes))
              (WatchEventOptions.Resource opts) None],
        mkSt w3 read)).
Proof.
  intros startCursor start round s1 Hgood0 Hrounds Hget Hhit Hgood2 elapsed w3 read.
  destruct (ticking_range _ _ Hgood0) as [H0 Hr0].
  destruct (ticking_range _ _ Hgood2) as [H2 Hr2].
  destruct (ticking_Now_Unix 0 _ Hgood0) as (Hstart & _ & _).
  destruct (ticking_Now_Unix 0 _ Hgood2) as (Hnow & _ & _).
  fold start in Hstart.
  destruct (deadline_test (T (world s)) (T w2) H0 H2 Hr0 Hr2) as [Hearly Hlate].
  rewrite <- Hstart, <- Hnow in Hearly, Hlate.
  pose proof (cursorRound_nohit key opts startCursor start s' nodes w2
                (fst (world_Now_Unix w2)) w3 Hget Hhit (surjective_pairing _)) as Hround.
  cbv zeta in Hround. fold round read in Hround.
  split.
  - intros Hle. rewrite (Hearly Hle) in Hround.
    apply (rounds_step _ _ _ _ _ _ _ _ Hrounds). rewrite Hround.
    unfold bind, time_Sleep, call, ret. cbn [world calls].
    by destruct (world_Sleep loopInternal w3) as [[] w4].
  - intros Hge. rewrite (Hlate Hge) in Hround.
    rewrite (watchWithCursor_loop _ _ _ _ _ _ (surjective_pairing _)).
    fold startCursor start round s1.
    rewrite (rounds_iter _ _ _ _ _ _ _ Hrounds). apply iter_return.
    rewrite Hround. by destruct (last nodes).
Qed.

Lemma late_reading (T0 T1 : Z) :
  (0 ≤ T0)%Z → (T0 + 104 * (250 * time_Millisecond) ≤ T1)%Z →
  is_int64 (T1 `div` time_Second) →
  (sub64 (T1 `div` time_Second) (T0 `div` time_Second) >? timeoutWatchLoopSeconds)%Z = true.
Proof.
  unfold time_Second, time_Millisecond, timeoutWatchLoopSeconds. intros H0 Hlate Hrange.
  assert (Hdiv : (T0 `div` 1000000000 + 26 ≤ T1 `div` 1000000000)%Z).
  { rewrite <- Z.div_add by lia. apply Z.div_le_mono; lia. }
  assert (H0' : (0 ≤ T0 `div` 1000000000)%Z) by (apply Z.div_pos; lia).
  rewrite sub64_exact by (done || lia). apply Z.gtb_gt. lia.
Qed.

(** One round under a ticking clock: it ends the loop, or it goes on
    with the clock 250 ms further, and only when the 26 seconds had not
    yet gone by. *)
Lemma poll_round key opts startCursor (T0 D : Z) (k : nat) s :
  (0 ≤ T0)%Z →
  Good (S (S (S k))) (world s) →
  (T0 + D ≤ T (world s))%Z →
  let r := cursorRound key opts startCursor (T0 `div` time_Second) tt s in
  (∃ events, fst r = Ok (inr events))
  ∨ (∃ e, fst r = Err e)
  ∨ (∃ s', r = (Ok (inl tt), s')
           ∧ Good k (world s')
           ∧ (T0 + D + 250 * time_Millisecond ≤ T (world s'))%Z
           ∧ (D < 104 * (250 * time_Millisecond))%Z).
Proof.
  intros H0 Hgood Hlate r. unfold r. clear r.
  destruct (ticking_getNodesFromCursor _ eventStep startCursor key _ Hgood)
    as [Hmono1 Hgood1].
  destruct (world_getNodesFromCursor eventStep startCursor key (world s))
    as [[e|nodes] w1] eqn:Hget; cbn [snd] in Hmono1, Hgood1.
  { right. left. exists e. unfold cursorRound, getNodesFromCursor.
    by rewrite (bind_err _ _ _ _ _ (call_checked_err _ _ _ _ _ Hget)). }
  destruct (filter (type_passes (WatchEventOptions.EventTypes opts)) nodes)
    as [|m0 ms] eqn:Hhit.
  2:{ rewrite (cursorRound_hit _ _ _ _ _ _ _ Hget) by (by rewrite Hhit).
      unfold bind, getEventsWithCursorNodes, call_checked, bind, call.
      destruct (world_pipeline_Exec _ _) as [[e3|vals] w3]; cbn;
        [right; left|left]; by eexists. }
  destruct (ticking_Now_Unix _ _ Hgood1) as (Hnow & Hmono2 & Hgood2).
  destruct (world_Now_Unix w1) as [now w2] eqn:Hread.
  cbn [fst snd] in Hnow, Hmono2, Hgood2.
  rewrite (cursorRound_nohit _ _ _ _ _ _ _ _ _ Hget Hhit Hread).
  destruct (sub64 now _ >? _)%Z eqn:Hcmp.
  { left. destruct (last nodes); by eexists. }
  right. right.
  destruct (ticking_Sleep _ _ Hgood2) as [Hmono3 Hgood3].
  unfold bind, time_Sleep, call, loopInternal, ret. cbn [world calls].
  destruct (world_Sleep (250 * time_Millisecond) w2) as [[] w3].
  cbn [snd] in Hmono3, Hgood3.
  eexists. split; [reflexivity|]. cbn [world]. split; [done|]. split; [lia|].
  destruct (Z_lt_le_dec D (104 * (250 * time_Millisecond))) as [|Hge]; [done|].
  exfalso. subst now. rewrite late_reading in Hcmp; [done|done|lia|].
  by destruct (ticking_range _ _ Hgood1).
Qed.

(** With [j] sleeps to go at most, the loop returns within [j + 1] rounds. *)
Lemma poll_returns key opts startCursor (T0 : Z) (j : nat) :
  (0 ≤ T0)%Z → (j ≤ 104)%nat →
  ∀ fuel s,
    (j < fuel)%nat →
    Good (3 * S j) (world s) →
    (T0 + (104 - Z.of_nat j) * (250 * time_Millisecond) ≤ T (world s))%Z →
    returned (iter fuel (cursorRound key opts startCursor (T0 `div` time_Second)) tt s).
Proof.
  intros H0. induction j as [|j IH]; intros Hj fuel s Hfuel Hgood Hlate.
  - destruct fuel as [|fuel]; [lia|].
    change (Good (S (S (S 0))) (world s)) in Hgood.
    destruct (poll_round key opts startCursor T0 _ _ s H0 Hgood Hlate)
      as [[events Hr]|[[e Hr]|(s' & Hr & Hgood' & Hlate' & Hearly)]];
      [| |lia].
    + left. simpl. destruct (cursorRound _ _ _ _ _ _) as [[[u|r]|e'|msg|] s1];
        cbn in Hr; try done. by eexists.
    + right. exists e. by apply iter_error_fst.
  - destruct fuel as [|fuel]; [lia|].
    replace (3 * S (S j))%nat with (S (S (S (3 * S j)))) in Hgood by lia.
    destruct (poll_round key opts startCursor T0 _ _ s H0 Hgood Hlate)
      as [[events Hr]|[[e Hr]|(s' & Hr & Hgood' & Hlate' & Hearly)]].
    + left. simpl. destruct (cursorRound _ _ _ _ _ _) as [[[u|r]|e'|msg|] s1];
        cbn in Hr; try done. by eexists.
    + right. exists e. by apply iter_error_fst.
    + rewrite (iter_continue _ _ _ _ _ _ Hr). apply IH; [lia|lia|done|lia].
Qed.

(** X14. The long poll ends.  When the clock ticks (it is past the epoch,
    never set back, read in whole seconds that fit [int64], and a sleep of
    250 ms advances it by that much at least), a cursor request returns,
    with events or with an error, within 105 rounds of its loop: 104
    sleeps of 250 ms make 26 seconds, after which the deadline test of
    the next round holds. *)
Theorem X14_long_poll_ends fuel key opts s :
  Good 316 (world s) →
  (105 ≤ fuel)%nat →
  returned (watchWithCursor fuel key opts s).
Proof.
  intros Hgood Hfuel.
  destruct (ticking_Now_Unix _ _ Hgood) as (Hnow & Hmono & Hgood1).
  destruct (world_Now_Unix (world s)) as [start w1] eqn:Hread.
  cbn [fst snd] in Hnow, Hmono, Hgood1.
  rewrite (watchWithCursor_loop _ _ _ _ _ _ Hread). subst start.
  apply (poll_returns key opts _ (T (world s)) 104).
  - by destruct (ticking_range _ _ Hgood).
  - lia.
  - lia.
  - done.
  - cbn [world]. lia.
Qed.

End LongPoll.

Lemma sim_ticking step :
  Ticking (H := Sim.collaborators step) Sim.clock simGood.
Proof.
  split; unfold simGood, is_int64, int64_min, int64_max, time_Second, time_Millisecond; cbn.
  - intros k w (Hlat & Hclock & Hfit). split; [done|].
    assert (Sim.clock w `div` 1000000000 ≤ Sim.clock w)%Z by (apply Z.div_le_upper_bound; lia).
    assert (0 ≤ Sim.clock w `div` 1000000000)%Z by (apply Z.div_pos; lia).
    nia.
  - intros k w (Hlat & Hclock & Hfit). split; [done|]. split; [lia|]. nia.
  - intros k stp c key w (Hlat & Hclock & Hfit). unfold Sim.sim_getNodesFromCursor.
    destruct (decide _); [|destruct (Sim.nodes_after _ _)]; cbn; (split; [lia|nia]).
  - intros k w (Hlat & Hclock & Hfit). split; [lia|nia].
Qed.

(** * The instance client: where the requests go *)

Section InstRoutes.
Import Inst pretty.

Lemma string_append_cons c (a b : string) : String c a +:+ b = String c (a +:+ b).
Proof. reflexivity. Qed.

Lemma string_append_nil_r (s : string) : s +:+ "" = s.
Proof. induction s as [|c s IH]; [done|]. by rewrite string_append_cons, IH. Qed.

Lemma string_append_assoc (a b c : string) : (a +:+ b) +:+ c = a +:+ (b +:+ c).
Proof. induction a as [|x a IH]; [done|]. by rewrite !string_append_cons, IH. Qed.

Lemma segments_nil : segments "" = [""].
Proof. reflexivity. Qed.

Lemma segments_slash r l : segments r = l → segments (String "/" r) = "" :: l.
Proof. by intros <-. Qed.

Lemma segments_char c r seg segs :
  Ascii.eqb c "/" = false →
  segments r = seg :: segs → segments (String c r) = String c seg :: segs.
Proof. intros Hc Hr. cbn. by rewrite Hc, Hr. Qed.

Lemma segments_plain a r seg segs :
  plain a = true →
  segments r = seg :: segs → segments (a +:+ r) = (a +:+ seg) :: segs.
Proof.
  intros Ha Hr. induction a as [|c a IH]; [done|].
  cbn in Ha. apply andb_true_iff in Ha as [Hc Ha]. apply negb_true_iff in Hc.
  rewrite !string_append_cons. apply segments_char; [done|by apply IH].
Qed.

Lemma pretty_N_char_plain x : Ascii.eqb (pretty_N_char x) "/" = false.
Proof. destruct x as [|p]; [done|]. by do 4 (try destruct p as [p|p|]). Qed.

Lemma pretty_N_go_plain x s : plain s = true → plain (pretty_N_go x s) = true.
Proof.
  revert s. induction (N.lt_wf_0 x) as [x _ IH]. intros s Hs.
  destruct (decide (0 < x)%N) as [Hx|Hx].
  - rewrite pretty_N_go_step by done. apply IH.
    + apply N.div_lt; lia.
    + cbn. by rewrite pretty_N_char_plain.
  - assert (x = 0%N) as -> by lia. by rewrite pretty_N_go_0.
Qed.

Lemma pretty_N_plain (x : N) : plain (pretty x) = true.
Proof.
  unfold pretty, pretty_N. case_decide; [done|]. by apply pretty_N_go_plain.
Qed.

Lemma pretty_Z_plain (z : Z) : plain (pretty z) = true.
Proof.
  unfold pretty, pretty_Z. destruct z as [|p|p]; [done| |].
  - apply pretty_N_plain.
  - change (plain (String "-" (pretty (N.pos p))) = true). cbn.
    apply pretty_N_plain.
Qed.

Ltac split_path :=
  repeat first
    [ apply segments_nil
    | eapply segments_slash
    | eapply segments_char; [reflexivity|]
    | eapply segments_plain; [first [eassumption | apply pretty_Z_plain]|] ].

Lemma route_segmentsOf {Ctx Header Body} (ctx : Ctx) (h : Header) (dat : Body) op :
  Forall (λ id, plain id = true) (ids op) →
  ∃ path, route (request ctx h dat op) = Some (fst (segmentsOf op), path)
          ∧ segments path = snd (segmentsOf op).
Proof.
  intros Hids.
  destruct op; cbn in Hids;
    repeat match goal with
           | Hall : Forall _ (_ :: _) |- _ => apply Forall_cons in Hall as [? Hall]
           end;
    (eexists; split; [reflexivity|]);
    (etrans; [split_path|]); cbn [snd segmentsOf]; by rewrite ?string_append_nil_r.
Qed.

(** X17. The ten methods of the instance client send requests that can be
    told apart: when the string identifiers hold no slash, every call
    has a formatted sub-path, and the HTTP verb with that sub-path
    determines the method that was called and every identifier it was
    given, whatever the context, the headers and the body. *)
Theorem X17_client_routes_are_distinct {Ctx Header Body}
    (ctx ctx' : Ctx) (h h' : Header) (dat dat' : Body) (op op' : Operation) :
  Forall (λ id, plain id = true) (ids op) →
  Forall (λ id, plain id = true) (ids op') →
  is_Some (route (request ctx h dat op))
  ∧ (route (request ctx h dat op) = route (request ctx' h' dat' op') → op = op').
Proof.
  intros Hids Hids'.
  destruct (route_segmentsOf ctx h dat op Hids) as (path & Hroute & Hpath).
  destruct (route_segmentsOf ctx' h' dat' op' Hids') as (path' & Hroute' & Hpath').
  rewrite Hroute, Hroute'. split; [by eexists|].
  intros [= Hverb <-]. rewrite Hpath in Hpath'. clear -Hverb Hpath'.
  destruct op, op'; cbn in Hverb, Hpath'; try discriminate Hverb;
    try discriminate Hpath'; by simplify_eq.
Qed.

(** X18. The identifiers are put into the path as they are, so the
    condition on slashes is needed: [SelectInsts] called for the owner
    [owner] with an object identifier of the form [o/object/b] sends the
    very request line of [InstSearch] called for the owner [o] and the
    object [b]. *)
Theorem X18_client_ids_are_not_escaped {Ctx Header Body}
    (ctx : Ctx) (h : Header) (s : Body) (ownerID objID : string) :
  route (SelectInsts ctx "owner" (ownerID +:+ "/object/" +:+ objID) h s)
  = route (InstSearch ctx ownerID objID h s)
  ∧ is_Some (route (InstSearch ctx ownerID objID h s)).
Proof.
  split; [|by eexists].
  unfold route. cbn. by rewrite !string_append_assoc.
Qed.

End InstRoutes.

(** * The further properties on the in-memory world *)

Lemma X1_witness :
  let events :=
    [WatchEventResp.mk "C" "host"
       (Some (Sim.cutJsonDataWithFields (Sim.detailOf "c") ["name"]))] in
  events ≠ []
  ∧ Forall (λ r, WatchEventResp.Resource r = "host") events
  ∧ (Forall (λ r, is_Some (WatchEventResp.Detail r)) events
     ∨ ∃ cursor, events = [WatchEventResp.mk cursor "host" None]).
Proof.
  eapply (X1_answers_are_never_empty (H := Sim.step2) 4 Sim.hostKey Sim.wantCreate
            (Sim.start Sim.abcWorld)).
  right. vm_compute. reflexivity.
Defined.

Lemma X2_witness :
  let events := [WatchEventResp.mk "C" "host" (Some (Sim.detailOf "c"))] in
  events ≠ [] ∧ Forall (λ r, WatchEventResp.Resource r = "host") events.
Proof.
  apply (X2_handler_always_200 (H := Sim.step2) 4 "host" (inr Sim.s4Request)
           (Sim.start Sim.abcWorld)
           (WriteEntity [WatchEventResp.mk "C" "host" (Some (Sim.detailOf "c"))])
           (snd (WatchEvent (H := Sim.step2) 4 "host" (inr Sim.s4Request)
                   (Sim.start Sim.abcWorld)))).
  vm_compute. reflexivity.
Defined.

Lemma X15_witness :
  ∃ response,
    fst (WatchEvent (H := Sim.step2) 1 "host" (inr Scenario.afterUnknown)
           (Sim.start Sim.abcWorld))
    = Ok response
    ∧ (response = WriteError 200 (mkRespError CCErrCommHTTPInputInvalid)
       ∨ ∃ events, response = WriteEntity events).
Proof.
  eexists. split; [reflexivity|].
  apply (X15_error_codes (H := Sim.step2) 1 "host" (inr Scenario.afterUnknown)
           (Sim.start Sim.abcWorld) _
           (snd (WatchEvent (H := Sim.step2) 1 "host" (inr Scenario.afterUnknown)
                   (Sim.start Sim.abcWorld)))).
  vm_compute. reflexivity.
Defined.


Lemma X8_witness :
  fst (watchWithStartFrom (H := Flaky.step2) (0 + 1) Sim.hostKey Sim.wantCreate
         (Sim.start (Flaky.abcDownAfter 1)))
  = Err "connection refused"
  ∧ fst (watchWithStartFrom (H := Sim.step2) (1 + 1) Sim.hostKey Sim.wantCreate
           (Sim.start Scenario.expiredWorld))
    = Err "redis: nil"
  ∧ fst (watchWithStartFrom (H := Sim.step2) (1 + 1) Sim.hostKey Sim.wantDelete
           (Sim.start Scenario.expiredWorld))
    = Err "redis: nil".
Proof.
  split; [|split].
  - edestruct (X8_scan_failures (H := Flaky.step2) 0 0 Sim.hostKey Sim.wantCreate
                 (Sim.start (Flaky.abcDownAfter 1))) as (Hwindow & _ & _); [evaluate ..|].
    erewrite Hwindow; [|evaluate ..]. reflexivity.
  - edestruct (X8_scan_failures (H := Sim.step2) 1 0 Sim.hostKey Sim.wantCreate
                 (Sim.start Scenario.expiredWorld)) as (_ & Hpipe & _); [evaluate ..|].
    erewrite Hpipe; [|evaluate ..]. reflexivity.
  - edestruct (X8_scan_failures (H := Sim.step2) 1 0 Sim.hostKey Sim.wantDelete
                 (Sim.start Scenario.expiredWorld)) as (_ & _ & Htail); [evaluate ..|].
    erewrite Htail; [|evaluate ..]. reflexivity.
Defined.

Lemma X9_witness :
  fst (WatchEvent (H := Sim.step2) 1 "host" (inr Scenario.afterUnknown)
         (Sim.start Sim.abcWorld))
  = Ok (WriteError 200 (mkRespError CCErrCommHTTPInputInvalid))
  ∧ fst (watchWithCursor (H := Sim.step2) 1 Sim.hostKey Scenario.afterUnknown
           (Sim.start Sim.abcWorld))
    = Err "cursor does not exist".
Proof.
  pose proof (X9_cursor_window_failure (H := Sim.step2) 0 "host" Scenario.afterUnknown
                Sim.hostKey (Sim.start Sim.abcWorld)) as HX9.
  cbv zeta in HX9.
  edestruct HX9 as (Hrun & Hw); [evaluate ..|].
  split; [by rewrite Hw|].
  change (withResource Scenario.afterUnknown "host") with Scenario.afterUnknown in Hrun.
  by rewrite Hrun.
Defined.

Lemma X10_witness :
  fst (watchWithStartFrom (H := Flaky.step2) 1 Sim.hostKey Sim.wantCreate
         (Sim.start (Flaky.abcDownAfter 0)))
  = Err "connection refused"
  ∧ fst (watchFromNow (H := Flaky.step2) Sim.hostKey Sim.wantCreate
           (Sim.start (Flaky.abcDownAfter 0)))
    = Err "connection refused".
Proof.
  destruct (X10_first_read (H := Flaky.step2) 1 Sim.hostKey Sim.wantCreate
              (Sim.start (Flaky.abcDownAfter 0))) as (Hht & Hlatest & _).
  split.
  - erewrite Hht; [|reflexivity]. reflexivity.
  - erewrite Hlatest; [|reflexivity]. reflexivity.
Defined.

Lemma X11_witness :
  getHitNodeWithEventType [Sim.nodeA; Sim.nodeB; Sim.nodeC] ["create"; "update"]
  = getHitNodeWithEventType [Sim.nodeA; Sim.nodeB; Sim.nodeC]
      ["update"; "create"; "update"].
Proof.
  apply X11_requested_types_are_a_set. intros t.
  rewrite !elem_of_cons, !elem_of_nil. tauto.
Defined.

Lemma X13_witness :
  fst (watchWithStartFrom (H := Sim.step2) (1 + 3) Sim.hostKey Sim.wantDelete
         (Sim.start Sim.abcWorld))
  = Ok [WatchEventResp.mk "C" "host" (Some (Sim.detailOf "c"))]
  ∧ ¬ (type_passes ["delete"] Sim.nodeC ∧ (101 ≤ 102)%Z).
Proof.
  edestruct (X13_tail_miss_returns_an_excluded_event (H := Sim.step2) 1 2 Sim.hostKey
               Sim.wantDelete (Sim.start Sim.abcWorld)) as (Hrun & Hexcluded);
    [evaluate ..|].
  split; [exact Hrun|exact Hexcluded].
Defined.

Lemma X14_witness :
  returned (watchWithCursor (H := Sim.step2) 105 Sim.hostKey Sim.bodyAfterC
              (Sim.start Sim.abcWorld)).
Proof.
  apply (X14_long_poll_ends (H := Sim.step2) Sim.clock simGood (Ticking0 := sim_ticking 2)).
  - vm_compute. intuition congruence.
  - lia.
Defined.

Lemma X16_witness :
  fst <$> rounds 1 (cursorRound (H := Sim.step2) Sim.hostKey Sim.bodyAfterC "C" 150) tt
            (mkSt Sim.abcWorld [CallNowUnix])
  = Some tt
  ∧ fst (watchWithCursor (H := Sim.step2) (1 + 1) Sim.hostKey Sim.bodyAfterC
           (Sim.start Sim.slowWorld))
    = Ok [WatchEventResp.mk "NoEventCursor" "host" None].
Proof.
  split.
  - pose proof (X16_deadline_in_whole_seconds (H := Sim.step2) Sim.clock simGood
                  (Ticking0 := sim_ticking 2) 0 0 Sim.hostKey Sim.bodyAfterC
                  (Sim.start Sim.abcWorld)) as HX16.
    cbv zeta in HX16.
    edestruct HX16 as (Hgoes & _); [evaluate ..|].
    apply (f_equal (fmap fst)) in Hgoes; [exact Hgoes|]. vm_compute. congruence.
  - pose proof (X16_deadline_in_whole_seconds (H := Sim.step2) Sim.clock simGood
                  (Ticking0 := sim_ticking 2) 1 0 Sim.hostKey Sim.bodyAfterC
                  (Sim.start Sim.slowWorld)) as HX16.
    cbv zeta in HX16.
    edestruct HX16 as (_ & Hends); [evaluate ..|].
    rewrite Hends; [reflexivity|]. vm_compute. congruence.
Defined.

Lemma X5_witness :
  fst (scanRound (H := step2) hostKey wantDelete
         (fst (world_After (Collaborators := step2) (25 * time_Second) abcWorld))
         (Key.HeadKey hostKey) (start abcWorld))
  = Ok (inl "B").
Proof.
  erewrite (proj2 (X5_scan_moves_to_last_cursor (H := step2) hostKey wantDelete _
                     (Key.HeadKey hostKey) (start abcWorld) "B" _)).
  - reflexivity.
  - eexists _, _, _, _. repeat split; try reflexivity. vm_compute. congruence.
Defined.

Lemma X17_witness :
  Inst.route (Inst.DeleteInst (Body := unit) tt "0" "host" 42 tt)
  = Some (Inst.Delete, "/inst/0/host/42")
  ∧ is_Some (Inst.route (Inst.request tt tt tt (Inst.OpDeleteInst "0" "host" 42))).
Proof.
  split; [reflexivity|].
  apply (X17_client_routes_are_distinct tt tt tt tt tt tt
           (Inst.OpDeleteInst "0" "host" 42) (Inst.OpDeleteInst "0" "host" 42)).
  - by repeat constructor.
  - by repeat constructor.
Defined.
